(** * lisdf: the entity tree of [lisdf.components] and its two renderers

    A shallow embedding of [lisdf/components/model.py] and
    [lisdf/components/state.py].  Every entity class becomes a record, the
    two rendering methods [_to_sdf] and [_to_urdf] of a class become two
    functions in a monad that threads the [StringifyContext] and carries
    Python exceptions.  The modules the two files import
    ([lisdf.components.base], [control], [material], [sensor], [shape],
    [lisdf.utils.printing]) are taken as collaborators: their types and
    operations are fields of the classes [Collaborators] and [Renderers], and
    the render context of [base] is modelled from the specification. *)

From Stdlib Require Import String Ascii List ZArith Bool Lia DecimalString.
Import ListNotations.
Local Open Scope list_scope.
Local Open Scope string_scope.

(* ===================================================================== *)
(** ** Python strings *)
(* ===================================================================== *)

(** The double quote and the line feed, written by their codes. *)
Definition dq : string := String (ascii_of_nat 34) EmptyString.
Definition nl : string := String (ascii_of_nat 10) EmptyString.

(** [sep.join(parts)]. *)
Definition py_join (sep : string) (parts : list string) : string :=
  String.concat sep parts.

(** [str(b)] of a Python [bool], as an f-string prints it. *)
Definition py_bool_str (b : bool) : string :=
  if b then "True" else "False".

(** The ASCII characters [str.isspace] accepts: tab to carriage return,
    the four separators 28 to 31, and the blank. *)
Definition py_isspace (c : ascii) : bool :=
  let n := nat_of_ascii c in
  (Nat.leb 9 n && Nat.leb n 13) || (Nat.leb 28 n && Nat.leb n 31)
  || Nat.eqb n 32.

Fixpoint py_lstrip (s : string) : string :=
  match s with
  | EmptyString => EmptyString
  | String c s' => if py_isspace c then py_lstrip s' else s
  end.

Fixpoint py_rstrip (s : string) : string :=
  match s with
  | EmptyString => EmptyString
  | String c s' =>
      match py_rstrip s' with
      | EmptyString => if py_isspace c then EmptyString else String c EmptyString
      | r => String c r
      end
  end.

(** [s.strip()]. *)
Definition py_strip (s : string) : string := py_rstrip (py_lstrip s).

(** [str(n)] of a Python [int]. *)
Definition py_int_str (n : Z) : string :=
  DecimalString.NilZero.string_of_int (Z.to_int n).

(** [needle in hay], as a proposition. *)
Definition contains (needle hay : string) : Prop :=
  exists before after, hay = before ++ needle ++ after.

(** [hay.startswith(p)], as a proposition. *)
Definition starts_with (p hay : string) : Prop :=
  exists rest, hay = p ++ rest.

(* ===================================================================== *)
(** ** Exceptions *)
(* ===================================================================== *)

(** The exceptions the two source files raise: the [ValueError] and the
    assertions they raise themselves, and the [AttributeError] of Python
    for a method called on [None]. *)
Inductive Exc : Type :=
| ValueError (msg : string)
| AssertionError (msg : string)
| AttributeError (msg : string).

(* ===================================================================== *)
(** ** Collaborators: what the imported modules provide *)
(* ===================================================================== *)

(** The data of the modules [model.py] imports and that are not part of
    this development.  [Pose] with [Pose_identity] and [Pose_compose]
    (outer pose first) is [lisdf.components.base.Pose]; [PyNum] is a Python
    number (the [float] fields, which [Inertia.zeros] fills with the integer
    [0]) and [num_str] its [str]; [ShapeInfo_from_type] is
    [ShapeInfo.from_type], which raises on a shape type it does not know;
    [RGBA] is the constructor of [lisdf.components.material.RGBA];
    [JointInfo_type] is the [type] attribute of a [JointInfo];
    [indent_text] is [lisdf.utils.printing.indent_text], its level [None]
    when the call leaves it out; [NAME_SCOPE_SEP] is the separator the
    render context joins scoped names with. *)
Class Collaborators : Type := {
  Pose : Type;
  Pose_identity : Pose;
  Pose_compose : Pose -> Pose -> Pose;
  PyNum : Type;
  num_zero : PyNum;
  num_str : PyNum -> string;
  ShapeInfo : Type;
  ShapeKwargs : Type;
  ShapeInfo_from_type : string -> ShapeKwargs -> Exc + ShapeInfo;
  Material : Type;
  RGBA : PyNum -> PyNum -> PyNum -> PyNum -> Material;
  JointInfo : Type;
  JointInfo_type : JointInfo -> string;
  JointControlInfo : Type;
  Sensor : Type;
  indent_text : string -> option Z -> string;
  NAME_SCOPE_SEP : string
}.

(** The separator the specification gives as the default. *)
Definition default_sep : string := ".".

(* ===================================================================== *)
(** ** The entity classes of model.py and state.py *)
(* ===================================================================== *)

Section Components.
Context {C : Collaborators}.

Record Inertia : Type := mkInertia {
  Inertia_ixx : PyNum;
  Inertia_ixy : PyNum;
  Inertia_ixz : PyNum;
  Inertia_iyy : PyNum;
  Inertia_iyz : PyNum;
  Inertia_izz : PyNum
}.

Definition Inertia_zeros : Inertia :=
  mkInertia num_zero num_zero num_zero num_zero num_zero num_zero.

Definition Inertia_from_diagonal (ixx iyy izz : PyNum) : Inertia :=
  mkInertia ixx num_zero num_zero iyy num_zero izz.

Record Inertial : Type := mkInertial {
  Inertial_mass : PyNum;
  Inertial_pose : Pose;
  Inertial_inertia : Inertia
}.

Definition Inertial_zeros : Inertial :=
  mkInertial num_zero Pose_identity Inertia_zeros.

Inductive SurfaceContact : Type := mkSurfaceContact.
Inductive SurfaceFriction : Type := mkSurfaceFriction.

Record SurfaceInfo : Type := mkSurfaceInfo {
  SurfaceInfo_contact : option SurfaceContact;
  SurfaceInfo_friction : option SurfaceFriction
}.

(** [_Geom] gives a collision and a visual their [name], [pose] and
    [shape].  The pose is annotated [Pose], yet [_to_sdf] tests it against
    [None]: the field is optional here, as every field is that a renderer
    tests against [None]. *)
Record Collision : Type := mkCollision {
  Collision_name : string;
  Collision_pose : option Pose;
  Collision_shape : ShapeInfo;
  Collision_surface : option SurfaceInfo
}.

Record Visual : Type := mkVisual {
  Visual_name : string;
  Visual_pose : option Pose;
  Visual_shape : ShapeInfo;
  Visual_material : option Material
}.

Record Link : Type := mkLink {
  Link_name : string;
  Link_parent : option string;
  Link_pose : option Pose;
  Link_inertial : option Inertial;
  Link_collisions : list Collision;
  Link_visuals : list Visual;
  Link_sensors : list Sensor
}.

(** [name] is annotated [str], yet [_to_sdf] branches on its being [None]
    and [_to_urdf] asserts that it is not: the field is optional here. *)
Record Joint : Type := mkJoint {
  Joint_name : option string;
  Joint_parent : string;
  Joint_child : string;
  Joint_pose : Pose;
  Joint_joint_info : JointInfo;
  Joint_control_info : option JointControlInfo
}.

Definition Joint_type (j : Joint) : string := JointInfo_type (Joint_joint_info j).

Record Model : Type := mkModel {
  Model_name : string;
  Model_pose : option Pose;
  Model_parent : option string;
  Model_static : bool;
  Model_links : list Link;
  Model_joints : list Joint
}.

(** [SDFInclude]; [URDFInclude] is a subclass that adds nothing.  The
    resolved content [_content] is never read by a renderer and is left
    out. *)
Record SDFInclude : Type := mkSDFInclude {
  SDFInclude_name : option string;
  SDFInclude_uri : string;
  SDFInclude_scale : PyNum * PyNum * PyNum;
  SDFInclude_pose : option Pose;
  SDFInclude_parent : option string;
  SDFInclude_static : bool;
  SDFInclude_scale1d : option PyNum
}.

(** The property [scale_1d]: an assertion guards the read. *)
Definition SDFInclude_scale_1d (i : SDFInclude) : Exc + PyNum :=
  match SDFInclude_scale1d i with
  | Some s => inr s
  | None => inl (AssertionError "scale_1d is not allowed. Use scale instead.")
  end.

(** state.py *)
Record JointAxisState : Type := mkJointAxisState {
  JointAxisState_axis : Z;
  JointAxisState_value : PyNum
}.

Record JointState : Type := mkJointState {
  JointState_name : string;
  JointState_axis_states : list JointAxisState
}.

Record LinkState : Type := mkLinkState {
  LinkState_name : string;
  LinkState_pose : option Pose
}.

Record ModelState : Type := mkModelState {
  ModelState_name : string;
  ModelState_parent : option string;
  ModelState_pose : option Pose;
  ModelState_joint_states : list JointState;
  ModelState_link_states : list LinkState
}.

Record WorldState : Type := mkWorldState {
  WorldState_name : string;
  WorldState_model_states : list ModelState
}.

(** Every object a renderer can be called on, and so every object a
    diagnostic can refer to: the classes of the two files, and the
    collaborators' objects they hold. *)
Inductive Entity : Type :=
| EInertia (x : Inertia)
| EInertial (x : Inertial)
| ESurfaceContact (x : SurfaceContact)
| ESurfaceFriction (x : SurfaceFriction)
| ESurfaceInfo (x : SurfaceInfo)
| ECollision (x : Collision)
| EVisual (x : Visual)
| ELink (x : Link)
| EJoint (x : Joint)
| EModel (x : Model)
| ESDFInclude (x : SDFInclude)
| EJointAxisState (x : JointAxisState)
| EJointState (x : JointState)
| ELinkState (x : LinkState)
| EModelState (x : ModelState)
| EWorldState (x : WorldState)
| EPose (x : Pose)
| EShapeInfo (x : ShapeInfo)
| EMaterial (x : Material)
| EJointInfo (x : JointInfo)
| EJointControlInfo (x : JointControlInfo).

(** A diagnostic: the object it is about and the message. *)
Definition Diagnostic : Type := (Entity * string)%type.

(** Modelled from the spec: the render context [StringifyContext] of
    [lisdf.components.base], which is not among the sources.  It holds a
    stack of name-scope prefixes, a stack of accumulated poses (both with the
    top at the head of the list) and the append-only list of diagnostics. *)
Record StringifyContext : Type := mkContext {
  name_scopes : list string;
  pose_stack : list Pose;
  warnings : list Diagnostic
}.

(** Modelled from the spec: a context is created fresh, with both stacks
    and the diagnostics empty, for each top-level render call. *)
Definition fresh_context : StringifyContext := mkContext [] [] [].

(** Modelled from the spec: the rendering operation of a collaborator's
    class [X], which is not among the sources.  Shape, material, control and
    pose objects carry their own two rendering operations under the same
    contract: such an operation reads the two stacks, may add diagnostics
    and returns its fragment; it leaves the stacks as they are, and it raises
    nothing, the include under URDF being the one construct that cannot be
    expressed. *)
Definition LeafRenderer (X : Type) : Type :=
  X -> list string -> list Pose -> list Diagnostic * string.

End Components.

(** The rendering operations of the collaborators' classes. *)
Class Renderers {C : Collaborators} : Type := {
  Pose_to_sdf : LeafRenderer Pose;
  Pose_to_urdf : LeafRenderer Pose;
  ShapeInfo_to_sdf : LeafRenderer ShapeInfo;
  ShapeInfo_to_urdf : LeafRenderer ShapeInfo;
  Material_to_sdf : LeafRenderer Material;
  Material_to_urdf : LeafRenderer Material;
  JointInfo_to_sdf : LeafRenderer JointInfo;
  JointInfo_to_urdf : LeafRenderer JointInfo;
  JointControlInfo_to_sdf : LeafRenderer JointControlInfo;
  JointControlInfo_to_urdf : LeafRenderer JointControlInfo
}.

(* ===================================================================== *)
(** ** The rendering monad and the render context *)
(* ===================================================================== *)

Section Rendering.
Context {C : Collaborators} {R : Renderers}.

(** A rendering step runs in a context and ends in a value or in a raised
    exception; either way it leaves a context behind, as a Python method
    that mutates [ctx] does. *)
Definition M (A : Type) : Type :=
  StringifyContext -> (Exc + A) * StringifyContext.

Definition ret {A : Type} (a : A) : M A := fun ctx => (inr a, ctx).

Definition bind {A B : Type} (c : M A) (k : A -> M B) : M B :=
  fun ctx =>
    match c ctx with
    | (inr a, ctx') => k a ctx'
    | (inl e, ctx') => (inl e, ctx')
    end.

Definition raise {A : Type} (e : Exc) : M A := fun ctx => (inl e, ctx).

(** [try: body finally: fin].  The handler runs on every exit of the body;
    what the body returned or raised stands unless the handler raises. *)
Definition try_finally {A : Type} (body : M A) (fin : M unit) : M A :=
  fun ctx =>
    let (r, ctx1) := body ctx in
    match fin ctx1 with
    | (inl e, ctx2) => (inl e, ctx2)
    | (inr _, ctx2) => (r, ctx2)
    end.

Notation "x <- c ;; k" := (bind c (fun x => k))
  (at level 61, c at next level, right associativity).
Notation "c ;;; k" := (bind c (fun _ => k))
  (at level 61, right associativity).

(** A list comprehension [[f(x) for x in xs]]: left to right, stopping at
    the first exception. *)
Fixpoint mapM {A B : Type} (f : A -> M B) (xs : list A) : M (list B) :=
  match xs with
  | [] => ret []
  | x :: xs' => y <- f x ;; ys <- mapM f xs' ;; ret (y :: ys)
  end.

(** Modelled from the spec: [warning(entity, message)] of the render
    context records a diagnostic; it never raises. *)
Definition warning (obj : Entity) (message : string) : M unit :=
  fun ctx =>
    (inr tt,
     mkContext (name_scopes ctx) (pose_stack ctx)
               (warnings ctx ++ [(obj, message)])%list).

(** Modelled from the spec: the scoped name joins the prefixes of the scope
    stack, oldest first, and the local name with the separator. *)
Definition scoped_name (scopes : list string) (name : string) : string :=
  py_join NAME_SCOPE_SEP (rev scopes ++ [name])%list.

(** Modelled from the spec: [get_scoped_name(name)] of the render context
    returns the scoped name and changes nothing. *)
Definition get_scoped_name (name : string) : M string :=
  fun ctx => (inr (scoped_name (name_scopes ctx) name), ctx).

(** Modelled from the spec: [push_scoped_name(name)] puts a prefix on the
    name-scope stack. *)
Definition push_scoped_name (name : string) : M unit :=
  fun ctx =>
    (inr tt, mkContext (name :: name_scopes ctx) (pose_stack ctx) (warnings ctx)).

(** Modelled from the spec: [pop_scoped_name()] takes the top prefix off.
    The spec does not say what a pop of an empty stack does; see
    [pop_scoped_pose]. *)
Definition pop_scoped_name : M unit :=
  fun ctx =>
    (inr tt, mkContext (tl (name_scopes ctx)) (pose_stack ctx) (warnings ctx)).

(** Modelled from the spec: [push_scoped_pose(pose)] composes the pose
    with the pose on top of the stack (the identity when the stack is
    empty), the top being the outer pose, and pushes the result. *)
Definition push_scoped_pose (pose : Pose) : M unit :=
  fun ctx =>
    (inr tt,
     mkContext (name_scopes ctx)
               (Pose_compose (hd Pose_identity (pose_stack ctx)) pose
                  :: pose_stack ctx)
               (warnings ctx)).

(** Modelled from the spec: [pop_scoped_pose()] takes the top pose off.
    The spec does not say what a pop of an empty stack does.
    [Link._to_urdf] pops the pose stack on every exit, also for a link
    without a pose, which pushed nothing, and [Link.to_urdf_xml] renders the
    links [from_simple_geom] builds, which have no pose: a pop of an empty
    stack leaves it empty and raises nothing. *)
Definition pop_scoped_pose : M unit :=
  fun ctx =>
    (inr tt, mkContext (name_scopes ctx) (tl (pose_stack ctx)) (warnings ctx)).

(** A collaborator's rendering operation, run in the context. *)
Definition leaf {X : Type} (f : LeafRenderer X) (x : X) : M string :=
  fun ctx =>
    let (ws, s) := f x (name_scopes ctx) (pose_stack ctx) in
    (inr s,
     mkContext (name_scopes ctx) (pose_stack ctx) (warnings ctx ++ ws)%list).

(** [x.render(ctx) if x is not None else ""]. *)
Definition if_some {X : Type} (f : X -> M string) (o : option X) : M string :=
  match o with
  | Some x => f x
  | None => ret EmptyString
  end.

(** [indent_text(s).strip()] and [indent_text(s, level).strip()]. *)
Definition indented (level : option Z) (c : M string) : M string :=
  s <- c ;; ret (py_strip (indent_text s level)).

(* ===================================================================== *)
(** ** model.py *)
(* ===================================================================== *)

Definition Inertia_to_sdf (x : Inertia) : M string :=
  ret ("<inertia>" ++ nl
    ++ "  <ixx>" ++ num_str (Inertia_ixx x) ++ "</ixx>" ++ nl
    ++ "  <ixy>" ++ num_str (Inertia_ixy x) ++ "</ixy>" ++ nl
    ++ "  <ixz>" ++ num_str (Inertia_ixz x) ++ "</ixz>" ++ nl
    ++ "  <iyy>" ++ num_str (Inertia_iyy x) ++ "</iyy>" ++ nl
    ++ "  <iyz>" ++ num_str (Inertia_iyz x) ++ "</iyz>" ++ nl
    ++ "  <izz>" ++ num_str (Inertia_izz x) ++ "</izz>" ++ nl
    ++ "</inertia>").

Definition Inertia_to_urdf (x : Inertia) : M string :=
  ret ("<inertia ixx=" ++ dq ++ num_str (Inertia_ixx x) ++ dq
    ++ " ixy=" ++ dq ++ num_str (Inertia_ixy x) ++ dq
    ++ " ixz=" ++ dq ++ num_str (Inertia_ixz x) ++ dq
    ++ " iyy=" ++ dq ++ num_str (Inertia_iyy x) ++ dq
    ++ " iyz=" ++ dq ++ num_str (Inertia_iyz x) ++ dq
    ++ " izz=" ++ dq ++ num_str (Inertia_izz x) ++ dq ++ " />").

Definition Inertial_to_sdf (x : Inertial) : M string :=
  pose_s <- leaf Pose_to_sdf (Inertial_pose x) ;;
  inertia_s <- indented None (Inertia_to_sdf (Inertial_inertia x)) ;;
  ret ("<inertial>" ++ nl
    ++ "  <mass>" ++ num_str (Inertial_mass x) ++ "</mass>" ++ nl
    ++ "  " ++ pose_s ++ nl
    ++ "  " ++ inertia_s ++ nl
    ++ "</inertial>").

Definition Inertial_to_urdf (x : Inertial) : M string :=
  pose_s <- leaf Pose_to_urdf (Inertial_pose x) ;;
  inertia_s <- indented None (Inertia_to_urdf (Inertial_inertia x)) ;;
  ret ("<inertial>" ++ nl
    ++ "  <mass value=" ++ dq ++ num_str (Inertial_mass x) ++ dq ++ "></mass>" ++ nl
    ++ "  " ++ pose_s ++ nl
    ++ "  " ++ inertia_s ++ nl
    ++ "</inertial>").

Definition SurfaceContact_to_sdf (x : SurfaceContact) : M string := ret EmptyString.
Definition SurfaceContact_to_urdf (x : SurfaceContact) : M string := ret EmptyString.
Definition SurfaceFriction_to_sdf (x : SurfaceFriction) : M string := ret EmptyString.
Definition SurfaceFriction_to_urdf (x : SurfaceFriction) : M string := ret EmptyString.

Definition SurfaceInfo_to_sdf (x : SurfaceInfo) : M string :=
  contact_s <- if_some (fun c => indented None (SurfaceContact_to_sdf c))
                       (SurfaceInfo_contact x) ;;
  friction_s <- if_some (fun f => indented None (SurfaceFriction_to_sdf f))
                        (SurfaceInfo_friction x) ;;
  ret ("<surface>" ++ nl
    ++ "  " ++ contact_s ++ nl
    ++ "  " ++ friction_s ++ nl
    ++ "</surface>").

Definition SurfaceInfo_to_urdf (x : SurfaceInfo) : M string :=
  warning (ESurfaceInfo x) "Link surface properties are not supported in URDF." ;;;
  ret EmptyString.

Definition Collision_to_sdf (x : Collision) : M string :=
  pose_s <- if_some (leaf Pose_to_sdf) (Collision_pose x) ;;
  shape_s <- indented (Some 2%Z) (leaf ShapeInfo_to_sdf (Collision_shape x)) ;;
  surface_s <- if_some (fun s => indented None (SurfaceInfo_to_sdf s))
                       (Collision_surface x) ;;
  ret ("<collision name=" ++ dq ++ Collision_name x ++ dq ++ ">>" ++ nl
    ++ "  " ++ pose_s ++ nl
    ++ "  <geometry>" ++ nl
    ++ "    " ++ shape_s ++ nl
    ++ "  </geometry>" ++ nl
    ++ "  " ++ surface_s ++ nl
    ++ "</collision>").

(** [self.pose.to_urdf(ctx)] for a pose that may be [None]: Python raises
    [AttributeError] when the method is looked up on [None]. *)
Definition Pose_to_urdf_unguarded (pose : option Pose) : M string :=
  match pose with
  | Some p => leaf Pose_to_urdf p
  | None =>
      raise (AttributeError "'NoneType' object has no attribute 'to_urdf'")
  end.

Definition Collision_to_urdf (x : Collision) : M string :=
  name <- get_scoped_name (Collision_name x) ;;
  pose_s <- Pose_to_urdf_unguarded (Collision_pose x) ;;
  shape_s <- indented (Some 2%Z) (leaf ShapeInfo_to_urdf (Collision_shape x)) ;;
  surface_s <- if_some (fun s => indented None (SurfaceInfo_to_urdf s))
                       (Collision_surface x) ;;
  ret ("<collision name=" ++ dq ++ name ++ dq ++ ">" ++ nl
    ++ "  " ++ pose_s ++ nl
    ++ "  <geometry>" ++ nl
    ++ "    " ++ shape_s ++ nl
    ++ "  </geometry>" ++ nl
    ++ "  " ++ surface_s ++ nl
    ++ "</collision>").

Definition Visual_to_sdf (x : Visual) : M string :=
  pose_s <- if_some (leaf Pose_to_sdf) (Visual_pose x) ;;
  shape_s <- indented (Some 2%Z) (leaf ShapeInfo_to_sdf (Visual_shape x)) ;;
  material_s <- if_some (fun m => indented None (leaf Material_to_sdf m))
                        (Visual_material x) ;;
  ret ("<visual name=" ++ dq ++ Visual_name x ++ dq ++ ">" ++ nl
    ++ "  " ++ pose_s ++ nl
    ++ "  <geometry>" ++ nl
    ++ "    " ++ shape_s ++ nl
    ++ "  </geometry>" ++ nl
    ++ "  " ++ material_s ++ nl
    ++ "</visual>").

Definition Visual_to_material_urdf (x : Visual) : M string :=
  name <- get_scoped_name (Visual_name x) ;;
  match Visual_material x with
  | Some m =>
      material_s <- indented None (leaf Material_to_urdf m) ;;
      ret ("<material name=" ++ dq ++ name ++ "_material" ++ dq ++ ">" ++ nl
        ++ "  " ++ material_s ++ nl
        ++ "</material>")
  | None => ret EmptyString
  end.

Definition Visual_to_urdf (x : Visual) : M string :=
  name <- get_scoped_name (Visual_name x) ;;
  material_str <- match Visual_material x with
                  | Some _ => Visual_to_material_urdf x
                  | None => ret EmptyString
                  end ;;
  pose_s <- Pose_to_urdf_unguarded (Visual_pose x) ;;
  shape_s <- indented (Some 2%Z) (leaf ShapeInfo_to_urdf (Visual_shape x)) ;;
  ret ("<visual name=" ++ dq ++ name ++ dq ++ ">" ++ nl
    ++ "  " ++ pose_s ++ nl
    ++ "  <geometry>" ++ nl
    ++ "    " ++ shape_s ++ nl
    ++ "  </geometry>" ++ nl
    ++ "  " ++ py_strip (indent_text material_str None) ++ nl
    ++ "</visual>").

(** [Link.from_simple_geom(name, pose, shape_type, rgba, inertial, **kwargs)]:
    the link of a single geometry.  The only step that can raise is
    [ShapeInfo.from_type].  The pose goes to the collision and the visual as
    it is given, [None] included. *)
Definition Link_from_simple_geom (name : string) (pose : option Pose)
    (shape_type : string) (rgba : PyNum * PyNum * PyNum * PyNum)
    (inertial : option Inertial) (kwargs : ShapeKwargs) : Exc + Link :=
  let inertial :=
    match inertial with
    | None => Inertial_zeros
    | Some i => i
    end in
  match ShapeInfo_from_type shape_type kwargs with
  | inl e => inl e
  | inr shape =>
      let '(r, g, b, a) := rgba in
      let material := RGBA r g b a in
      inr (mkLink name None None (Some inertial)
             [mkCollision (name ++ "_collision") pose shape None]
             [mkVisual (name ++ "_visual") pose shape (Some material)]
             [])
  end.

Definition Link_to_sdf (x : Link) : M string :=
  collision_strs <- mapM Collision_to_sdf (Link_collisions x) ;;
  visual_strs <- mapM Visual_to_sdf (Link_visuals x) ;;
  pose_s <- if_some (leaf Pose_to_sdf) (Link_pose x) ;;
  inertial_s <- if_some (fun i => indented None (Inertial_to_sdf i))
                        (Link_inertial x) ;;
  ret ("<link name=" ++ dq ++ Link_name x ++ dq ++ ">" ++ nl
    ++ "  " ++ pose_s ++ nl
    ++ "  " ++ inertial_s ++ nl
    ++ "  " ++ py_strip (indent_text (py_join nl collision_strs) None) ++ nl
    ++ "  " ++ py_strip (indent_text (py_join nl visual_strs) None) ++ nl
    ++ "</link>").

(** [Link._to_urdf], in its two parts: the push before the [try], made
    only for a link that has a pose, and the body of the [try]. *)
Definition Link_urdf_enter (x : Link) : M unit :=
  match Link_pose x with
  | Some p => push_scoped_pose p
  | None => ret tt
  end.

Definition Link_urdf_body (x : Link) : M string :=
  name <- get_scoped_name (Link_name x) ;;
  collision_strs <- mapM Collision_to_urdf (Link_collisions x) ;;
  visual_strs <- mapM Visual_to_urdf (Link_visuals x) ;;
  inertial_s <- if_some (fun i => indented None (Inertial_to_urdf i))
                        (Link_inertial x) ;;
  ret ("<link name=" ++ dq ++ name ++ dq ++ ">" ++ nl
    ++ "  " ++ inertial_s ++ nl
    ++ "  " ++ py_strip (indent_text (py_join nl collision_strs) None) ++ nl
    ++ "  " ++ py_strip (indent_text (py_join nl visual_strs) None) ++ nl
    ++ "</link>").

Definition Link_to_urdf (x : Link) : M string :=
  Link_urdf_enter x ;;;
  try_finally (Link_urdf_body x) pop_scoped_pose.

Definition Joint_to_sdf (x : Joint) : M string :=
  let name_str :=
    match Joint_name x with
    | Some n => " name=" ++ dq ++ n ++ dq
    | None => EmptyString
    end in
  pose_s <- leaf Pose_to_sdf (Joint_pose x) ;;
  info_s <- indented None (leaf JointInfo_to_sdf (Joint_joint_info x)) ;;
  control_s <- if_some (fun c => indented None (leaf JointControlInfo_to_sdf c))
                       (Joint_control_info x) ;;
  ret ("<joint" ++ name_str ++ " type=" ++ dq ++ Joint_type x ++ dq ++ ">" ++ nl
    ++ "  <parent>" ++ Joint_parent x ++ "</parent>" ++ nl
    ++ "  <child>" ++ Joint_child x ++ "</child>" ++ nl
    ++ "  " ++ pose_s ++ nl
    ++ "  " ++ info_s ++ nl
    ++ "  " ++ control_s ++ nl
    ++ "</joint>").

Definition Joint_to_urdf (x : Joint) : M string :=
  match Joint_name x with
  | None => raise (AssertionError EmptyString)
  | Some own_name =>
      name <- get_scoped_name own_name ;;
      parent <- get_scoped_name (Joint_parent x) ;;
      child <- get_scoped_name (Joint_child x) ;;
      pose_s <- leaf Pose_to_urdf (Joint_pose x) ;;
      info_s <- indented None (leaf JointInfo_to_urdf (Joint_joint_info x)) ;;
      control_s <- if_some (fun c => indented None (leaf JointControlInfo_to_urdf c))
                           (Joint_control_info x) ;;
      ret ("<joint name=" ++ dq ++ name ++ dq
             ++ " type=" ++ dq ++ Joint_type x ++ dq ++ ">" ++ nl
        ++ "  <parent link=" ++ dq ++ parent ++ dq ++ "/>" ++ nl
        ++ "  <child link=" ++ dq ++ child ++ dq ++ "/>" ++ nl
        ++ "  " ++ pose_s ++ nl
        ++ "  " ++ info_s ++ nl
        ++ "  " ++ control_s ++ nl
        ++ "</joint>")
  end.

Definition Model_to_sdf (x : Model) : M string :=
  link_strs <- mapM Link_to_sdf (Model_links x) ;;
  joint_strs <- mapM Joint_to_sdf (Model_joints x) ;;
  pose_s <- if_some (leaf Pose_to_sdf) (Model_pose x) ;;
  ret ("<model name=" ++ dq ++ Model_name x ++ dq ++ ">" ++ nl
    ++ "  <static>" ++ py_bool_str (Model_static x) ++ "</static>" ++ nl
    ++ "  " ++ pose_s ++ nl
    ++ "  " ++ py_strip (indent_text (py_join nl link_strs) None) ++ nl
    ++ "  " ++ py_strip (indent_text (py_join nl joint_strs) None) ++ nl
    ++ "</model>").

(** [Model._to_urdf], in its two parts: the tests and the push before the
    [try], and the body of the [try]. *)
Definition Model_urdf_enter (x : Model) : M unit :=
  (match Model_pose x with
   | Some _ => warning (EModel x) "Model::pose will be ignored in URDF."
   | None => ret tt
   end) ;;;
  (match Model_parent x with
   | Some _ => warning (EModel x) "Model::parent will be ignored in URDF."
   | None => ret tt
   end) ;;;
  (if Model_static x
   then warning (EModel x) "Model::static will be ignored in URDF."
   else ret tt) ;;;
  push_scoped_name (Model_name x).

(** The text [Model._to_urdf] returns, from the joined fragments. *)
Definition robot_element (name link_str joint_str : string) : string :=
  "<robot name=" ++ dq ++ name ++ dq ++ ">" ++ nl
    ++ "  " ++ py_strip (indent_text link_str None) ++ nl
    ++ "  " ++ py_strip (indent_text joint_str None) ++ nl
    ++ "</robot>".

Definition Model_urdf_body (x : Model) : M string :=
  link_strs <- mapM Link_to_urdf (Model_links x) ;;
  joint_strs <- mapM Joint_to_urdf (Model_joints x) ;;
  ret (robot_element (Model_name x) (py_join nl link_strs) (py_join nl joint_strs)).

Definition Model_to_urdf (x : Model) : M string :=
  Model_urdf_enter x ;;;
  try_finally (Model_urdf_body x) pop_scoped_name.

Definition SDFInclude_to_sdf (x : SDFInclude) : M string :=
  let scale_str :=
    match SDFInclude_scale1d x with
    | Some s => "<scale>" ++ num_str s ++ "</scale>"
    | None =>
        let '(s0, s1, s2) := SDFInclude_scale x in
        "<scale>" ++ num_str s0 ++ " " ++ num_str s1 ++ " " ++ num_str s2
          ++ "</scale>"
    end in
  let name_str :=
    match SDFInclude_name x with
    | Some n => " name=" ++ dq ++ n ++ dq
    | None => EmptyString
    end in
  pose_s <- if_some (leaf Pose_to_sdf) (SDFInclude_pose x) ;;
  ret ("<include" ++ name_str ++ dq ++ ">" ++ nl
    ++ "  <uri>" ++ SDFInclude_uri x ++ "</uri>" ++ nl
    ++ "  <static>" ++ py_bool_str (SDFInclude_static x) ++ "</static>" ++ nl
    ++ "  " ++ scale_str ++ nl
    ++ "  " ++ pose_s ++ nl
    ++ "</include>").

Definition SDFInclude_to_urdf (x : SDFInclude) : M string :=
  raise (ValueError "Include tags is not supported for URDF.").

(** [Model.to_sdf_xml]: the document around a render made in a fresh
    context.  The public [to_sdf] and [to_urdf] the renderers call belong to
    [StringConfigurable] of [lisdf.components.base]; going by the spec, they
    run the private method of the class in the context they are given, and
    [to_sdf], given none, in a fresh one. *)
Definition Model_to_sdf_xml (x : Model) : Exc + string :=
  match fst (Model_to_sdf x fresh_context) with
  | inl e => inl e
  | inr s =>
      inr ("<?xml version=" ++ dq ++ "1.0" ++ dq ++ "?>" ++ nl
        ++ "<sdf version=" ++ dq ++ "1.9" ++ dq ++ ">" ++ nl
        ++ s ++ nl
        ++ "</sdf>")
  end.

(** [Model.to_urdf_xml]: the XML declaration before what [self.to_urdf()]
    returns.  The call gives [to_urdf] no context; with what context and
    options [StringConfigurable.to_urdf] then runs the private method is not
    in the sources, so the call is the parameter [to_urdf_no_context]. *)
Definition Model_to_urdf_xml (to_urdf_no_context : Model -> Exc + string)
    (x : Model) : Exc + string :=
  match to_urdf_no_context x with
  | inl e => inl e
  | inr s => inr ("<?xml version=" ++ dq ++ "1.0" ++ dq ++ "?>" ++ nl ++ s)
  end.

(** [Model(self.name)] followed by [model.links.append(self)]. *)
Definition Link_as_model (x : Link) : Model :=
  mkModel (Link_name x) None None false [x] [].

Definition Link_to_sdf_xml (x : Link) : Exc + string :=
  Model_to_sdf_xml (Link_as_model x).

Definition Link_to_urdf_xml (to_urdf_no_context : Model -> Exc + string)
    (x : Link) : Exc + string :=
  Model_to_urdf_xml to_urdf_no_context (Link_as_model x).

(* ===================================================================== *)
(** ** state.py *)
(* ===================================================================== *)

(** The loops [for x in xs: fmt += indent_text(x.to_sdf(ctx)).strip() + "\n"]. *)
Fixpoint append_lines {A : Type} (f : A -> M string) (xs : list A)
    (fmt : string) : M string :=
  match xs with
  | [] => ret fmt
  | x :: xs' =>
      s <- indented None (f x) ;;
      append_lines f xs' (fmt ++ s ++ nl)
  end.

Definition JointAxisState_to_sdf (x : JointAxisState) : M string :=
  ret ("<angle axis=" ++ dq ++ py_int_str (JointAxisState_axis x) ++ dq ++ ">"
    ++ num_str (JointAxisState_value x) ++ "</angle>").

Definition JointAxisState_to_urdf (x : JointAxisState) : M string :=
  warning (EJointAxisState x) "JointAxisState is not supported in URDF." ;;;
  ret EmptyString.

Definition JointState_to_sdf (x : JointState) : M string :=
  fmt <- append_lines JointAxisState_to_sdf (JointState_axis_states x)
           ("<joint name=" ++ dq ++ JointState_name x ++ dq ++ ">" ++ nl) ;;
  ret (fmt ++ "</joint>").

Definition JointState_to_urdf (x : JointState) : M string :=
  warning (EJointState x) "JointState is not supported in URDF." ;;;
  ret EmptyString.

Definition LinkState_to_sdf (x : LinkState) : M string :=
  let fmt := "<link name=" ++ dq ++ LinkState_name x ++ dq ++ ">" ++ nl in
  fmt <- match LinkState_pose x with
         | Some p => s <- indented None (leaf Pose_to_sdf p) ;; ret (fmt ++ s ++ nl)
         | None => ret fmt
         end ;;
  ret (fmt ++ "</link>").

Definition LinkState_to_urdf (x : LinkState) : M string :=
  warning (ELinkState x) "LinkState is not supported in URDF." ;;;
  ret EmptyString.

Definition ModelState_to_sdf (x : ModelState) : M string :=
  let fmt := "<model name=" ++ dq ++ ModelState_name x ++ dq ++ ">" ++ nl in
  fmt <- match ModelState_pose x with
         | Some p => s <- indented None (leaf Pose_to_sdf p) ;; ret (fmt ++ s ++ nl)
         | None => ret fmt
         end ;;
  fmt <- append_lines JointState_to_sdf (ModelState_joint_states x) fmt ;;
  fmt <- append_lines LinkState_to_sdf (ModelState_link_states x) fmt ;;
  ret (fmt ++ "</model>").

Definition ModelState_to_urdf (x : ModelState) : M string :=
  warning (EModelState x) "ModelState is not supported in URDF." ;;;
  ret EmptyString.

Definition WorldState_to_sdf (x : WorldState) : M string :=
  fmt <- append_lines ModelState_to_sdf (WorldState_model_states x)
           ("<state world_name=" ++ dq ++ WorldState_name x ++ dq ++ ">" ++ nl) ;;
  ret (fmt ++ "</state>").

Definition WorldState_to_urdf (x : WorldState) : M string :=
  warning (EWorldState x) "WorldState is not supported in URDF." ;;;
  ret EmptyString.

(* ===================================================================== *)
(** ** The two rendering operations, on any entity *)
(* ===================================================================== *)

(** The two target formats: SDF nests models, URDF is flat. *)
Inductive Format : Type := SDF | URDF.

(** [e.to_sdf(ctx)]: the method of the class of [e]. *)
Definition to_sdf (e : Entity) : M string :=
  match e with
  | EInertia x => Inertia_to_sdf x
  | EInertial x => Inertial_to_sdf x
  | ESurfaceContact x => SurfaceContact_to_sdf x
  | ESurfaceFriction x => SurfaceFriction_to_sdf x
  | ESurfaceInfo x => SurfaceInfo_to_sdf x
  | ECollision x => Collision_to_sdf x
  | EVisual x => Visual_to_sdf x
  | ELink x => Link_to_sdf x
  | EJoint x => Joint_to_sdf x
  | EModel x => Model_to_sdf x
  | ESDFInclude x => SDFInclude_to_sdf x
  | EJointAxisState x => JointAxisState_to_sdf x
  | EJointState x => JointState_to_sdf x
  | ELinkState x => LinkState_to_sdf x
  | EModelState x => ModelState_to_sdf x
  | EWorldState x => WorldState_to_sdf x
  | EPose x => leaf Pose_to_sdf x
  | EShapeInfo x => leaf ShapeInfo_to_sdf x
  | EMaterial x => leaf Material_to_sdf x
  | EJointInfo x => leaf JointInfo_to_sdf x
  | EJointControlInfo x => leaf JointControlInfo_to_sdf x
  end.

(** [e.to_urdf(ctx)]: the method of the class of [e]. *)
Definition to_urdf (e : Entity) : M string :=
  match e with
  | EInertia x => Inertia_to_urdf x
  | EInertial x => Inertial_to_urdf x
  | ESurfaceContact x => SurfaceContact_to_urdf x
  | ESurfaceFriction x => SurfaceFriction_to_urdf x
  | ESurfaceInfo x => SurfaceInfo_to_urdf x
  | ECollision x => Collision_to_urdf x
  | EVisual x => Visual_to_urdf x
  | ELink x => Link_to_urdf x
  | EJoint x => Joint_to_urdf x
  | EModel x => Model_to_urdf x
  | ESDFInclude x => SDFInclude_to_urdf x
  | EJointAxisState x => JointAxisState_to_urdf x
  | EJointState x => JointState_to_urdf x
  | ELinkState x => LinkState_to_urdf x
  | EModelState x => ModelState_to_urdf x
  | EWorldState x => WorldState_to_urdf x
  | EPose x => leaf Pose_to_urdf x
  | EShapeInfo x => leaf ShapeInfo_to_urdf x
  | EMaterial x => leaf Material_to_urdf x
  | EJointInfo x => leaf JointInfo_to_urdf x
  | EJointControlInfo x => leaf JointControlInfo_to_urdf x
  end.

Definition render (fmt : Format) (e : Entity) : M string :=
  match fmt with
  | SDF => to_sdf e
  | URDF => to_urdf e
  end.

(** A top-level render call: the context is created fresh, and the caller
    reads the diagnostics from the context the call leaves. *)
Definition render_fresh (fmt : Format) (e : Entity)
  : (Exc + string) * StringifyContext :=
  render fmt e fresh_context.

(** The entities that only the nesting format can express: the surface
    properties of a collision and the state snapshots of state.py, the
    classes whose [_to_urdf] says so.  The payloads [SurfaceContact] and
    [SurfaceFriction] of the surface properties are not among them: they
    render to the empty string in both formats. *)
Definition nesting_only (e : Entity) : bool :=
  match e with
  | ESurfaceInfo _ | EJointAxisState _ | EJointState _ | ELinkState _
  | EModelState _ | EWorldState _ => true
  | _ => false
  end.

End Rendering.

(* ===================================================================== *)
(** ** What the properties speak of *)
(* ===================================================================== *)

Section Observations.
Context {C : Collaborators} {R : Renderers}.

(** A framed step returns a value, leaves both stacks as it found them and
    only appends diagnostics; value and diagnostics depend on the stacks
    alone. *)
Definition framed {A : Type} (c : M A) : Prop :=
  forall n p, exists a ws, forall w,
    c (mkContext n p w) = (inr a, mkContext n p (w ++ ws)%list).

(** A scoped step may raise and may pop the pose stack, but it restores the
    name-scope stack, leaves an empty pose stack empty and only appends
    diagnostics; its outcome depends on the stacks alone. *)
Definition scoped {A : Type} (c : M A) : Prop :=
  forall n p, exists r p' ws,
    (p = [] -> p' = []) /\
    forall w, c (mkContext n p w) = (r, mkContext n p' (w ++ ws)%list).

(** A steady step may raise, but it leaves both stacks as it found them
    and only appends diagnostics; its outcome depends on the stacks alone. *)
Definition steady {A : Type} (c : M A) : Prop :=
  forall n p, exists r ws, forall w,
    c (mkContext n p w) = (r, mkContext n p (w ++ ws)%list).

(** Whether the collisions and visuals of a link, and of every link of a
    model, all have a pose, as their annotation says. *)
Definition has_pose (pose : option Pose) : bool :=
  match pose with
  | Some _ => true
  | None => false
  end.

Definition link_has_poses (l : Link) : bool :=
  forallb (fun c => has_pose (Collision_pose c)) (Link_collisions l)
  && forallb (fun v => has_pose (Visual_pose v)) (Link_visuals l).

Definition model_has_poses (m : Model) : bool :=
  forallb link_has_poses (Model_links m).

(** The diagnostics [Model._to_urdf] records for the fields that are set,
    in the order of its three tests. *)
Definition Model_urdf_warnings (x : Model) : list Diagnostic :=
  ((match Model_pose x with
    | Some _ => [(EModel x, "Model::pose will be ignored in URDF.")]
    | None => []
    end)
   ++ (match Model_parent x with
       | Some _ => [(EModel x, "Model::parent will be ignored in URDF.")]
       | None => []
       end)
   ++ (if Model_static x
       then [(EModel x, "Model::static will be ignored in URDF.")]
       else []))%list.

(** The pose stack in which the body of [Link._to_urdf] runs, from the
    stack [p] the link is entered with. *)
Definition link_body_poses (l : Link) (p : list Pose) : list Pose :=
  match Link_pose l with
  | Some lp => Pose_compose (hd Pose_identity p) lp :: p
  | None => p
  end.

(** The opening tag of a link element. *)
Definition link_open_tag (name : string) : string :=
  "<link name=" ++ dq ++ name ++ dq ++ ">".

(** The text of a joint element of URDF, from the three scoped names. *)
Definition joint_open_tags (name type parent child : string) : string :=
  "<joint name=" ++ dq ++ name ++ dq ++ " type=" ++ dq ++ type ++ dq ++ ">" ++ nl
    ++ "  <parent link=" ++ dq ++ parent ++ dq ++ "/>" ++ nl
    ++ "  <child link=" ++ dq ++ child ++ dq ++ "/>".

(** The postcondition of a link rendered in a model: the fragment opens
    with the scoped name, and it is what the body of [Link._to_urdf]
    returns under the name scopes [n] and the pose stack of the body. *)
Definition link_rendered (n : list string) (p0 : list Pose) (l : Link)
    (frag : string) : Prop :=
  starts_with (link_open_tag (scoped_name n (Link_name l))) frag /\
  forall w, fst (Link_urdf_body l (mkContext n (link_body_poses l p0) w))
            = inr frag.

(** The postcondition of a joint rendered in a model. *)
Definition joint_rendered (n : list string) (j : Joint) (frag : string) : Prop :=
  exists own,
    Joint_name j = Some own /\
    starts_with (joint_open_tags (scoped_name n own) (Joint_type j)
                   (scoped_name n (Joint_parent j))
                   (scoped_name n (Joint_child j))) frag.

(** The prefix a scope stack puts before a local name. *)
Definition scope_prefix (scopes : list string) : string :=
  fold_right (fun s acc => s ++ NAME_SCOPE_SEP ++ acc) EmptyString (rev scopes).

(** [hay.endswith(suffix)], as a proposition. *)
Definition ends_with (suffix hay : string) : Prop :=
  exists before, hay = before ++ suffix.

(** The XML declaration both document methods start with. *)
Definition xml_declaration : string :=
  "<?xml version=" ++ dq ++ "1.0" ++ dq ++ "?>".

(** The opening tags of a collision and of a visual element. *)
Definition collision_open_tag (name : string) : string :=
  "<collision name=" ++ dq ++ name ++ dq ++ ">".

Definition visual_open_tag (name : string) : string :=
  "<visual name=" ++ dq ++ name ++ dq ++ ">".

(** The text [Link._to_urdf] returns, from the scoped name and the
    fragments of the inertial, the collisions and the visuals. *)
Definition link_element (name inertial_s : string)
    (collision_strs visual_strs : list string) : string :=
  "<link name=" ++ dq ++ name ++ dq ++ ">" ++ nl
    ++ "  " ++ inertial_s ++ nl
    ++ "  " ++ py_strip (indent_text (py_join nl collision_strs) None) ++ nl
    ++ "  " ++ py_strip (indent_text (py_join nl visual_strs) None) ++ nl
    ++ "</link>".

(** The text [Model._to_sdf] returns, from the fragments of its parts. *)
Definition model_element (name : string) (static : bool)
    (pose_s link_str joint_str : string) : string :=
  "<model name=" ++ dq ++ name ++ dq ++ ">" ++ nl
    ++ "  <static>" ++ py_bool_str static ++ "</static>" ++ nl
    ++ "  " ++ pose_s ++ nl
    ++ "  " ++ py_strip (indent_text link_str None) ++ nl
    ++ "  " ++ py_strip (indent_text joint_str None) ++ nl
    ++ "</model>".

(** The first lines of the element [Joint._to_sdf] returns: the opening
    tag, with the name attribute only for a joint that has a name, and the
    parent and child elements. *)
Definition joint_sdf_open_tags (j : Joint) : string :=
  "<joint"
    ++ match Joint_name j with
       | Some n => " name=" ++ dq ++ n ++ dq
       | None => EmptyString
       end
    ++ " type=" ++ dq ++ Joint_type j ++ dq ++ ">" ++ nl
    ++ "  <parent>" ++ Joint_parent j ++ "</parent>" ++ nl
    ++ "  <child>" ++ Joint_child j ++ "</child>".

(** The text [JointAxisState._to_sdf] returns. *)
Definition JointAxisState_text (x : JointAxisState) : string :=
  "<angle axis=" ++ dq ++ py_int_str (JointAxisState_axis x) ++ dq ++ ">"
    ++ num_str (JointAxisState_value x) ++ "</angle>".

(** Whether a joint lacks a name. *)
Definition unnamed (j : Joint) : bool :=
  match Joint_name j with
  | None => true
  | Some _ => false
  end.

(** The exception of an attribute looked up on [None]. *)
Definition no_to_urdf : Exc :=
  AttributeError "'NoneType' object has no attribute 'to_urdf'".

(** The entities whose URDF render raises: an include; a collision or a
    visual without a pose, and a link that holds one; a joint without a
    name; a model that holds such a link or such a joint. *)
Definition raises_in_urdf (e : Entity) : bool :=
  match e with
  | ESDFInclude _ => true
  | ECollision c => negb (has_pose (Collision_pose c))
  | EVisual v => negb (has_pose (Visual_pose v))
  | ELink l => negb (link_has_poses l)
  | EJoint j => unnamed j
  | EModel m => negb (model_has_poses m) || existsb unnamed (Model_joints m)
  | _ => false
  end.

(** The exception the URDF render of such an entity raises.  A model
    renders its links before its joints, so a missing pose is met first. *)
Definition urdf_exception (e : Entity) : Exc :=
  match e with
  | ESDFInclude _ => ValueError "Include tags is not supported for URDF."
  | ECollision _ | EVisual _ | ELink _ => no_to_urdf
  | EModel m => if model_has_poses m then AssertionError EmptyString
                else no_to_urdf
  | _ => AssertionError EmptyString
  end.

(** The lines the loop of [JointState._to_sdf] adds, one for each axis
    state. *)
Definition axis_lines (xs : list JointAxisState) : string :=
  fold_right
    (fun a acc => py_strip (indent_text (JointAxisState_text a) None) ++ nl ++ acc)
    EmptyString xs.

End Observations.

(* ===================================================================== *)
(** ** A concrete set of collaborators *)
(* ===================================================================== *)

(** The examples run the renderers with collaborators of the simplest
    kind.  A pose is a translation by an integer vector, so that composing
    adds the offsets and the identity is the zero offset; a number is an
    integer; a shape is its type name, from the six the output formats
    describe; a material is its four colour components; a joint description
    is its type.  The URDF text of a pose gives the coordinates composed with
    the pose on top of the stack. *)
Module Demo.

Definition DPose : Type := (Z * Z * Z)%type.

Definition compose (outer inner : DPose) : DPose :=
  let '(x1, y1, z1) := outer in
  let '(x2, y2, z2) := inner in
  ((x1 + x2)%Z, (y1 + y2)%Z, (z1 + z2)%Z).

Definition shape_types : list string :=
  ["box"; "sphere"; "cylinder"; "capsule"; "plane"; "mesh"].

Definition from_type (shape_type : string) (kwargs : unit) : Exc + string :=
  if existsb (String.eqb shape_type) shape_types
  then inr shape_type
  else inl (ValueError "unknown shape type").

(** Every line of the text moved right by two blanks for each level, one
    level when none is given. *)
Fixpoint indent_lines (pad s : string) : string :=
  match s with
  | EmptyString => EmptyString
  | String c s' =>
      if Ascii.eqb c (ascii_of_nat 10)
      then String c (pad ++ indent_lines pad s')
      else String c (indent_lines pad s')
  end.

Definition indent (s : string) (level : option Z) : string :=
  let n := match level with Some k => Z.to_nat k | None => 1%nat end in
  let pad := String.concat EmptyString (repeat "  " n) in
  pad ++ indent_lines pad s.

#[export] Instance collaborators : Collaborators := {|
  Pose := DPose;
  Pose_identity := (0%Z, 0%Z, 0%Z);
  Pose_compose := compose;
  PyNum := Z;
  num_zero := 0%Z;
  num_str := py_int_str;
  ShapeInfo := string;
  ShapeKwargs := unit;
  ShapeInfo_from_type := from_type;
  Material := (Z * Z * Z * Z)%type;
  RGBA := fun r g b a => (r, g, b, a);
  JointInfo := string;
  JointInfo_type := fun t => t;
  JointControlInfo := unit;
  Sensor := unit;
  indent_text := indent;
  NAME_SCOPE_SEP := default_sep
|}.

Definition coordinates (p : DPose) : string :=
  let '(x, y, z) := p in
  py_int_str x ++ " " ++ py_int_str y ++ " " ++ py_int_str z.

Definition pose_sdf : LeafRenderer DPose :=
  fun p _ _ => ([], "<pose>" ++ coordinates p ++ " 0 0 0</pose>").

Definition pose_urdf : LeafRenderer DPose :=
  fun p _ stack =>
    ([], "<origin xyz=" ++ dq ++ coordinates (compose (hd (0%Z, 0%Z, 0%Z) stack) p)
           ++ dq ++ " rpy=" ++ dq ++ "0 0 0" ++ dq ++ "/>").

Definition shape_text : LeafRenderer string :=
  fun s _ _ => ([], "<" ++ s ++ "/>").

Definition material_text : LeafRenderer (Z * Z * Z * Z) :=
  fun m _ _ =>
    let '(r, g, b, a) := m in
    ([], "<color rgba=" ++ dq ++ py_int_str r ++ " " ++ py_int_str g ++ " "
           ++ py_int_str b ++ " " ++ py_int_str a ++ dq ++ "/>").

Definition info_text : LeafRenderer string :=
  fun _ _ _ => ([], "<axis/>").

Definition control_text : LeafRenderer unit :=
  fun _ _ _ => ([], EmptyString).

#[export] Instance renderers : Renderers := {|
  Pose_to_sdf := pose_sdf;
  Pose_to_urdf := pose_urdf;
  ShapeInfo_to_sdf := shape_text;
  ShapeInfo_to_urdf := shape_text;
  Material_to_sdf := material_text;
  Material_to_urdf := material_text;
  JointInfo_to_sdf := info_text;
  JointInfo_to_urdf := info_text;
  JointControlInfo_to_sdf := control_text;
  JointControlInfo_to_urdf := control_text
|}.

(** A link [l] placed at [(0, 2, 0)], with one collision that has surface
    properties, and one visual. *)
Definition link_l : Link :=
  mkLink "l" None (Some (0%Z, 2%Z, 0%Z)) None
    [mkCollision "l_collision" (Some (0%Z, 0%Z, 0%Z)) "box"
       (Some (mkSurfaceInfo None (Some mkSurfaceFriction)))]
    [mkVisual "l_visual" (Some (0%Z, 0%Z, 0%Z)) "box"
       (Some (1%Z, 0%Z, 0%Z, 1%Z))]
    [].

Definition link_k : Link :=
  mkLink "k" None None None [] [] [].

(** A model [m] placed at [(1, 0, 0)] that holds the link [l]. *)
Definition model_m : Model :=
  mkModel "m" (Some (1%Z, 0%Z, 0%Z)) None false [link_l] [].

Definition joint_j : Joint :=
  mkJoint (Some "j") "l" "k" (0%Z, 0%Z, 0%Z) "fixed" None.

Definition joint_unnamed : Joint :=
  mkJoint None "l" "k" (0%Z, 0%Z, 0%Z) "fixed" None.

(** A model of two links joined by [j]. *)
Definition model_jointed : Model :=
  mkModel "m" None None false [link_l; link_k] [joint_j].

(** A static model whose only joint has no name. *)
Definition model_unnamed_joint : Model :=
  mkModel "m" None None true [link_l; link_k] [joint_unnamed].

Definition include_i : SDFInclude :=
  mkSDFInclude (Some "i") "model://table" (1%Z, 1%Z, 1%Z) None None false None.

End Demo.

(* ===================================================================== *)
(** ** How a rendering step uses the context *)
(* ===================================================================== *)

Section Properties.
Context {C : Collaborators} {R : Renderers}.

Lemma framed_scoped {A : Type} (c : M A) : framed c -> scoped c.
Proof.
  intros H n p. destruct (H n p) as (a & ws & Ha).
  exists (inr a), p, ws. split; [tauto | exact Ha].
Qed.

Lemma framed_ret {A : Type} (a : A) : framed (ret a).
Proof.
  intros n p. exists a, []. intro w. unfold ret. now rewrite app_nil_r.
Qed.

Lemma framed_bind {A B : Type} (c : M A) (k : A -> M B) :
  framed c -> (forall a, framed (k a)) -> framed (bind c k).
Proof.
  intros Hc Hk n p.
  destruct (Hc n p) as (a & ws & Ha).
  destruct (Hk a n p) as (b & ws' & Hb).
  exists b, (ws ++ ws')%list. intro w.
  unfold bind. rewrite Ha, Hb, app_assoc. reflexivity.
Qed.

Lemma framed_leaf {X : Type} (f : LeafRenderer X) (x : X) : framed (leaf f x).
Proof.
  intros n p. unfold leaf. cbn.
  destruct (f x n p) as [ws s]. exists s, ws. reflexivity.
Qed.

Lemma framed_warning (obj : Entity) (message : string) :
  framed (warning obj message).
Proof. intros n p. exists tt, [(obj, message)]. reflexivity. Qed.

Lemma framed_get_scoped_name (name : string) : framed (get_scoped_name name).
Proof.
  intros n p. exists (scoped_name n name), []. intro w.
  unfold get_scoped_name. cbn. now rewrite app_nil_r.
Qed.

Lemma framed_mapM {A B : Type} (f : A -> M B) (xs : list A) :
  (forall x, framed (f x)) -> framed (mapM f xs).
Proof.
  intro Hf. induction xs as [|x xs IH]; cbn.
  - apply framed_ret.
  - apply framed_bind; [apply Hf|]. intro y.
    apply framed_bind; [exact IH|]. intro ys. apply framed_ret.
Qed.

Lemma framed_if_some {X : Type} (f : X -> M string) (o : option X) :
  (forall x, framed (f x)) -> framed (if_some f o).
Proof. intro Hf. destruct o; cbn; [apply Hf | apply framed_ret]. Qed.

Lemma framed_indented (level : option Z) (c : M string) :
  framed c -> framed (indented level c).
Proof.
  intro Hc. unfold indented. apply framed_bind; [exact Hc|].
  intro s. apply framed_ret.
Qed.

Lemma framed_append_lines {A : Type} (f : A -> M string) (xs : list A) :
  (forall x, framed (f x)) -> forall fmt, framed (append_lines f xs fmt).
Proof.
  intro Hf. induction xs as [|x xs IH]; intro fmt; cbn.
  - apply framed_ret.
  - apply framed_bind; [apply framed_indented, Hf|]. intro s. apply IH.
Qed.

(** One step of a proof that a renderer is framed: the rule of the
    outermost operation, or a case split on the test it starts with. *)
Ltac framed_step :=
  first
    [ apply framed_ret
    | apply framed_leaf
    | apply framed_warning
    | apply framed_get_scoped_name
    | apply framed_bind
    | apply framed_mapM
    | apply framed_if_some
    | apply framed_indented
    | apply framed_append_lines
    | match goal with
      | |- framed (match ?x with _ => _ end) => destruct x
      | |- framed (let _ := _ in _) => cbv zeta
      end
    | progress intros ].

Create HintDb render discriminated.

Ltac framed_tac :=
  repeat (first [ solve [auto with render] | framed_step ]).

Lemma framed_Inertia_to_sdf x : framed (Inertia_to_sdf x).
Proof. unfold Inertia_to_sdf. framed_tac. Qed.

Lemma framed_Inertia_to_urdf x : framed (Inertia_to_urdf x).
Proof. unfold Inertia_to_urdf. framed_tac. Qed.

#[local] Hint Resolve framed_Inertia_to_sdf framed_Inertia_to_urdf : render.

Lemma framed_Inertial_to_sdf x : framed (Inertial_to_sdf x).
Proof. unfold Inertial_to_sdf. framed_tac. Qed.

Lemma framed_Inertial_to_urdf x : framed (Inertial_to_urdf x).
Proof. unfold Inertial_to_urdf. framed_tac. Qed.

#[local] Hint Resolve framed_Inertial_to_sdf framed_Inertial_to_urdf : render.

Lemma framed_SurfaceInfo_to_sdf x : framed (SurfaceInfo_to_sdf x).
Proof.
  unfold SurfaceInfo_to_sdf, SurfaceContact_to_sdf, SurfaceFriction_to_sdf.
  framed_tac.
Qed.

Lemma framed_SurfaceInfo_to_urdf x : framed (SurfaceInfo_to_urdf x).
Proof. unfold SurfaceInfo_to_urdf. framed_tac. Qed.

#[local] Hint Resolve framed_SurfaceInfo_to_sdf framed_SurfaceInfo_to_urdf : render.

Lemma framed_Collision_to_sdf x : framed (Collision_to_sdf x).
Proof. unfold Collision_to_sdf. framed_tac. Qed.

Lemma framed_Visual_to_sdf x : framed (Visual_to_sdf x).
Proof. unfold Visual_to_sdf. framed_tac. Qed.

Lemma framed_Visual_to_material_urdf x : framed (Visual_to_material_urdf x).
Proof. unfold Visual_to_material_urdf. framed_tac. Qed.

#[local] Hint Resolve framed_Visual_to_material_urdf : render.

#[local] Hint Resolve framed_Collision_to_sdf framed_Visual_to_sdf : render.

Lemma framed_Link_to_sdf x : framed (Link_to_sdf x).
Proof. unfold Link_to_sdf. framed_tac. Qed.

Lemma framed_Joint_to_sdf x : framed (Joint_to_sdf x).
Proof. unfold Joint_to_sdf. framed_tac. Qed.

#[local] Hint Resolve framed_Link_to_sdf framed_Joint_to_sdf : render.

Lemma framed_Model_to_sdf x : framed (Model_to_sdf x).
Proof. unfold Model_to_sdf. framed_tac. Qed.

Lemma framed_SDFInclude_to_sdf x : framed (SDFInclude_to_sdf x).
Proof. unfold SDFInclude_to_sdf. framed_tac. Qed.

Lemma framed_JointAxisState_to_sdf x : framed (JointAxisState_to_sdf x).
Proof. unfold JointAxisState_to_sdf. framed_tac. Qed.

#[local] Hint Resolve framed_JointAxisState_to_sdf : render.

Lemma framed_JointState_to_sdf x : framed (JointState_to_sdf x).
Proof. unfold JointState_to_sdf. framed_tac. Qed.

Lemma framed_LinkState_to_sdf x : framed (LinkState_to_sdf x).
Proof. unfold LinkState_to_sdf. framed_tac. Qed.

#[local] Hint Resolve framed_JointState_to_sdf framed_LinkState_to_sdf : render.

Lemma framed_ModelState_to_sdf x : framed (ModelState_to_sdf x).
Proof. unfold ModelState_to_sdf. framed_tac. Qed.

#[local] Hint Resolve framed_ModelState_to_sdf : render.

Lemma framed_WorldState_to_sdf x : framed (WorldState_to_sdf x).
Proof. unfold WorldState_to_sdf. framed_tac. Qed.

#[local] Hint Resolve framed_Model_to_sdf framed_SDFInclude_to_sdf
  framed_WorldState_to_sdf : render.

(** Every entity renders to SDF in a framed step. *)
Lemma framed_to_sdf (e : Entity) : framed (to_sdf e).
Proof.
  destruct e; cbn [to_sdf]; auto with render;
    solve [ apply framed_leaf | apply framed_ret ].
Qed.

(** *** Steps that may raise: steady and scoped *)

Lemma framed_steady {A : Type} (c : M A) : framed c -> steady c.
Proof.
  intros H n p. destruct (H n p) as (a & ws & Ha). now exists (inr a), ws.
Qed.

Lemma steady_scoped {A : Type} (c : M A) : steady c -> scoped c.
Proof.
  intros H n p. destruct (H n p) as (r & ws & Hr).
  exists r, p, ws. split; [tauto | exact Hr].
Qed.

Lemma steady_bind {A B : Type} (c : M A) (k : A -> M B) :
  steady c -> (forall a, steady (k a)) -> steady (bind c k).
Proof.
  intros Hc Hk n p. destruct (Hc n p) as (r & ws & Hr).
  destruct r as [e | a].
  - exists (inl e), ws. intro w. unfold bind. now rewrite Hr.
  - destruct (Hk a n p) as (r2 & ws2 & Hr2).
    exists r2, (ws ++ ws2)%list. intro w.
    unfold bind. rewrite Hr, Hr2, app_assoc. reflexivity.
Qed.

Lemma steady_mapM {A B : Type} (f : A -> M B) (xs : list A) :
  (forall x, steady (f x)) -> steady (mapM f xs).
Proof.
  intro Hf. induction xs as [|x xs IH]; cbn.
  - apply framed_steady, framed_ret.
  - apply steady_bind; [apply Hf|]. intro y.
    apply steady_bind; [exact IH|]. intro ys.
    apply framed_steady, framed_ret.
Qed.

Lemma steady_raise {A : Type} (e : Exc) : steady (@raise _ A e).
Proof.
  intros n p. exists (inl e), []. intro w. unfold raise. now rewrite app_nil_r.
Qed.

Lemma steady_Pose_to_urdf_unguarded (pose : option Pose) :
  steady (Pose_to_urdf_unguarded pose).
Proof.
  destruct pose; cbn; [apply framed_steady, framed_leaf | apply steady_raise].
Qed.

(** One step of a proof that a renderer is steady. *)
Ltac steady_step :=
  first
    [ apply steady_Pose_to_urdf_unguarded
    | apply steady_bind
    | apply steady_mapM
    | apply framed_steady; solve [framed_tac]
    | progress intros ].

Ltac steady_tac := repeat steady_step.

Lemma steady_Collision_to_urdf x : steady (Collision_to_urdf x).
Proof. unfold Collision_to_urdf. steady_tac. Qed.

Lemma steady_Visual_to_urdf x : steady (Visual_to_urdf x).
Proof.
  unfold Visual_to_urdf. apply steady_bind; [steady_tac|]. intro name.
  apply steady_bind.
  { apply framed_steady. destruct (Visual_material x); framed_tac. }
  steady_tac.
Qed.

Lemma steady_Link_urdf_body x : steady (Link_urdf_body x).
Proof.
  unfold Link_urdf_body. apply steady_bind; [steady_tac|]. intro name.
  apply steady_bind; [apply steady_mapM, steady_Collision_to_urdf|]. intro cs.
  apply steady_bind; [apply steady_mapM, steady_Visual_to_urdf|]. intro vs.
  steady_tac.
Qed.

Lemma scoped_bind {A B : Type} (c : M A) (k : A -> M B) :
  scoped c -> (forall a, scoped (k a)) -> scoped (bind c k).
Proof.
  intros Hc Hk n p.
  destruct (Hc n p) as (r & p1 & ws & Hp1 & Hr).
  destruct r as [e | a].
  - exists (inl e), p1, ws. split; [exact Hp1|].
    intro w. unfold bind. now rewrite Hr.
  - destruct (Hk a n p1) as (r2 & p2 & ws2 & Hp2 & Hr2).
    exists r2, p2, (ws ++ ws2)%list. split; [auto|].
    intro w. unfold bind. rewrite Hr, Hr2, app_assoc. reflexivity.
Qed.

Lemma scoped_mapM {A B : Type} (f : A -> M B) (xs : list A) :
  (forall x, scoped (f x)) -> scoped (mapM f xs).
Proof.
  intro Hf. induction xs as [|x xs IH]; cbn.
  - apply framed_scoped, framed_ret.
  - apply scoped_bind; [apply Hf|]. intro y.
    apply scoped_bind; [exact IH|]. intro ys.
    apply framed_scoped, framed_ret.
Qed.

Lemma scoped_raise {A : Type} (e : Exc) : scoped (@raise _ A e).
Proof.
  intros n p. exists (inl e), p, []. split; [tauto|].
  intro w. unfold raise. now rewrite app_nil_r.
Qed.

Lemma append_assoc (a b c : string) : (a ++ b) ++ c = a ++ b ++ c.
Proof. induction a as [|x a IH]; cbn; [reflexivity | now rewrite IH]. Qed.

Lemma starts_with_append (p rest : string) : starts_with p (p ++ rest).
Proof. now exists rest. Qed.

(** A list comprehension over framed steps, with a postcondition [Q] on
    each element and its result. *)
Lemma mapM_framed_run {A B : Type} (f : A -> M B)
    (Q : list string -> list Pose -> A -> B -> Prop) :
  (forall x n p, exists b ws,
     Q n p x b /\
     forall w, f x (mkContext n p w) = (inr b, mkContext n p (w ++ ws)%list)) ->
  forall xs n p, exists bs ws,
    Forall2 (Q n p) xs bs /\
    forall w, mapM f xs (mkContext n p w)
              = (inr bs, mkContext n p (w ++ ws)%list).
Proof.
  intros Hf xs n p. induction xs as [|x xs IH].
  - exists [], []. split; [constructor|].
    intro w. cbn. unfold ret. now rewrite app_nil_r.
  - destruct (Hf x n p) as (b & ws1 & HQ & Hrun).
    destruct IH as (bs & ws2 & HQs & Hruns).
    exists (b :: bs), (ws1 ++ ws2)%list. split; [now constructor|].
    intro w. cbn. unfold bind. rewrite Hrun, Hruns.
    unfold ret. now rewrite app_assoc.
Qed.

(** A list comprehension over steady steps that either return or raise the
    exception [e0], by whether [ok] holds of the element: it returns when
    [ok] holds of every element, with the postcondition [Q] on each element
    and its result, and raises [e0] otherwise. *)
Lemma mapM_outcome {A B : Type} (f : A -> M B) (ok : A -> bool) (e0 : Exc)
    (Q : list string -> A -> B -> Prop) :
  (forall x n p, ok x = true ->
     exists b ws,
       Q n x b /\
       forall w, f x (mkContext n p w) = (inr b, mkContext n p (w ++ ws)%list)) ->
  (forall x n p, ok x = false ->
     exists ws,
       forall w, f x (mkContext n p w) = (inl e0, mkContext n p (w ++ ws)%list)) ->
  forall xs n p,
    if forallb ok xs
    then exists bs ws,
           Forall2 (Q n) xs bs /\
           forall w, mapM f xs (mkContext n p w)
                     = (inr bs, mkContext n p (w ++ ws)%list)
    else exists ws,
           forall w, mapM f xs (mkContext n p w)
                     = (inl e0, mkContext n p (w ++ ws)%list).
Proof.
  intros Hok Hbad xs n p. induction xs as [|x xs IH]; cbn [forallb].
  - exists [], []. split; [constructor|].
    intro w. cbn. unfold ret. now rewrite app_nil_r.
  - destruct (ok x) eqn:Hx; cbn [andb].
    + destruct (Hok x n p Hx) as (b & ws1 & HQ & Hrun).
      destruct (forallb ok xs).
      * destruct IH as (bs & ws2 & HQs & Hruns).
        exists (b :: bs), (ws1 ++ ws2)%list. split; [now constructor|].
        intro w. cbn. unfold bind. rewrite Hrun, Hruns.
        unfold ret. now rewrite app_assoc.
      * destruct IH as (ws2 & Hruns).
        exists (ws1 ++ ws2)%list. intro w. cbn. unfold bind.
        rewrite Hrun, Hruns. now rewrite app_assoc.
    + destruct (Hbad x n p Hx) as (ws1 & Hrun).
      exists ws1. intro w. cbn. unfold bind. now rewrite Hrun.
Qed.

Lemma Collision_to_urdf_run (c : Collision) (n : list string) (p : list Pose) :
  has_pose (Collision_pose c) = true ->
  exists frag ws,
    starts_with (collision_open_tag (scoped_name n (Collision_name c))) frag /\
    forall w, Collision_to_urdf c (mkContext n p w)
              = (inr frag, mkContext n p (w ++ ws)%list).
Proof.
  intro Hpose. destruct (Collision_pose c) as [pose|] eqn:Hc; [|discriminate].
  destruct (framed_leaf Pose_to_urdf pose n p) as (ps & ws1 & H1).
  destruct (framed_indented (Some 2%Z) _
              (framed_leaf ShapeInfo_to_urdf (Collision_shape c)) n p)
    as (ss & ws2 & H2).
  destruct (framed_if_some (fun s => indented None (SurfaceInfo_to_urdf s))
              (Collision_surface c)
              (fun s => framed_indented None _ (framed_SurfaceInfo_to_urdf s)) n p)
    as (us & ws3 & H3).
  eexists. exists (ws1 ++ ws2 ++ ws3)%list. split.
  2:{ intro w. unfold Collision_to_urdf, bind, get_scoped_name.
      rewrite Hc. cbn [Pose_to_urdf_unguarded name_scopes pose_stack warnings].
      rewrite H1, H2, H3. unfold ret. rewrite <- !app_assoc. reflexivity. }
  unfold starts_with, collision_open_tag. eexists.
  rewrite !append_assoc. reflexivity.
Qed.

Lemma Collision_to_urdf_raise (c : Collision) (n : list string) (p : list Pose) :
  has_pose (Collision_pose c) = false ->
  exists ws,
    forall w, Collision_to_urdf c (mkContext n p w)
              = (inl no_to_urdf, mkContext n p (w ++ ws)%list).
Proof.
  intro Hpose. destruct (Collision_pose c) as [pose|] eqn:Hc; [discriminate|].
  exists []. intro w. unfold Collision_to_urdf, bind, get_scoped_name.
  rewrite Hc. cbn. now rewrite app_nil_r.
Qed.

Lemma Visual_material_str_framed (v : Visual) :
  framed (match Visual_material v with
          | Some _ => Visual_to_material_urdf v
          | None => ret EmptyString
          end).
Proof.
  destruct (Visual_material v);
    [apply framed_Visual_to_material_urdf | apply framed_ret].
Qed.

Lemma Visual_to_urdf_run (v : Visual) (n : list string) (p : list Pose) :
  has_pose (Visual_pose v) = true ->
  exists frag ws,
    starts_with (visual_open_tag (scoped_name n (Visual_name v))) frag /\
    forall w, Visual_to_urdf v (mkContext n p w)
              = (inr frag, mkContext n p (w ++ ws)%list).
Proof.
  intro Hpose. destruct (Visual_pose v) as [pose|] eqn:Hv; [|discriminate].
  destruct (Visual_material_str_framed v n p) as (ms & ws0 & H0).
  destruct (framed_leaf Pose_to_urdf pose n p) as (ps & ws1 & H1).
  destruct (framed_indented (Some 2%Z) _
              (framed_leaf ShapeInfo_to_urdf (Visual_shape v)) n p)
    as (ss & ws2 & H2).
  eexists. exists (ws0 ++ ws1 ++ ws2)%list. split.
  2:{ intro w. unfold Visual_to_urdf, bind, get_scoped_name.
      cbn [name_scopes pose_stack warnings]. rewrite H0, Hv.
      cbn [Pose_to_urdf_unguarded]. rewrite H1, H2.
      unfold ret. rewrite <- !app_assoc. reflexivity. }
  unfold starts_with, visual_open_tag. eexists.
  rewrite !append_assoc. reflexivity.
Qed.

Lemma Visual_to_urdf_raise (v : Visual) (n : list string) (p : list Pose) :
  has_pose (Visual_pose v) = false ->
  exists ws,
    forall w, Visual_to_urdf v (mkContext n p w)
              = (inl no_to_urdf, mkContext n p (w ++ ws)%list).
Proof.
  intro Hpose. destruct (Visual_pose v) as [pose|] eqn:Hv; [discriminate|].
  destruct (Visual_material_str_framed v n p) as (ms & ws0 & H0).
  exists ws0. intro w. unfold Visual_to_urdf, bind, get_scoped_name.
  cbn [name_scopes pose_stack warnings]. rewrite H0, Hv. reflexivity.
Qed.

(** The body of [Link._to_urdf] for a link whose geometry has its poses,
    with the fragments of the geometry. *)
Lemma Link_urdf_body_parts (l : Link) (n : list string) (p : list Pose) :
  link_has_poses l = true ->
  exists collision_strs visual_strs inertial_s ws,
    Forall2 (fun c frag =>
               starts_with (collision_open_tag (scoped_name n (Collision_name c)))
                           frag)
            (Link_collisions l) collision_strs /\
    Forall2 (fun v frag =>
               starts_with (visual_open_tag (scoped_name n (Visual_name v))) frag)
            (Link_visuals l) visual_strs /\
    forall w, Link_urdf_body l (mkContext n p w)
              = (inr (link_element (scoped_name n (Link_name l)) inertial_s
                        collision_strs visual_strs),
                 mkContext n p (w ++ ws)%list).
Proof.
  unfold link_has_poses. intro Hposes.
  apply andb_true_iff in Hposes. destruct Hposes as [HCok HVok].
  pose proof (mapM_outcome Collision_to_urdf
                (fun c => has_pose (Collision_pose c)) no_to_urdf
                (fun n0 c frag =>
                   starts_with (collision_open_tag
                                  (scoped_name n0 (Collision_name c))) frag)
                (fun c n0 p0 => Collision_to_urdf_run c n0 p0)
                (fun c n0 p0 => Collision_to_urdf_raise c n0 p0)
                (Link_collisions l) n p) as HC.
  rewrite HCok in HC. destruct HC as (cs & ws1 & HC & H1).
  pose proof (mapM_outcome Visual_to_urdf
                (fun v => has_pose (Visual_pose v)) no_to_urdf
                (fun n0 v frag =>
                   starts_with (visual_open_tag (scoped_name n0 (Visual_name v)))
                               frag)
                (fun v n0 p0 => Visual_to_urdf_run v n0 p0)
                (fun v n0 p0 => Visual_to_urdf_raise v n0 p0)
                (Link_visuals l) n p) as HV.
  rewrite HVok in HV. destruct HV as (vs & ws2 & HV & H2).
  destruct (framed_if_some (fun i => indented None (Inertial_to_urdf i))
              (Link_inertial l)
              (fun i => framed_indented None _ (framed_Inertial_to_urdf i)) n p)
    as (ins & ws3 & H3).
  exists cs, vs, ins, (ws1 ++ ws2 ++ ws3)%list.
  split; [exact HC|]. split; [exact HV|].
  intro w. unfold Link_urdf_body, bind, get_scoped_name.
  cbn [name_scopes pose_stack warnings]. rewrite H1, H2, H3.
  unfold ret, link_element. rewrite <- !app_assoc. reflexivity.
Qed.

(** The body of [Link._to_urdf] for a link that holds a collision or a
    visual without a pose: the lookup on [None] raises. *)
Lemma Link_urdf_body_raise (l : Link) (n : list string) (p : list Pose) :
  link_has_poses l = false ->
  exists ws,
    forall w, Link_urdf_body l (mkContext n p w)
              = (inl no_to_urdf, mkContext n p (w ++ ws)%list).
Proof.
  unfold link_has_poses. intro Hposes.
  pose proof (mapM_outcome Collision_to_urdf
                (fun c => has_pose (Collision_pose c)) no_to_urdf
                (fun n0 c frag =>
                   starts_with (collision_open_tag
                                  (scoped_name n0 (Collision_name c))) frag)
                (fun c n0 p0 => Collision_to_urdf_run c n0 p0)
                (fun c n0 p0 => Collision_to_urdf_raise c n0 p0)
                (Link_collisions l) n p) as HC.
  destruct (forallb (fun c => has_pose (Collision_pose c)) (Link_collisions l)).
  - cbn [andb] in Hposes. destruct HC as (cs & ws1 & _ & H1).
    pose proof (mapM_outcome Visual_to_urdf
                  (fun v => has_pose (Visual_pose v)) no_to_urdf
                  (fun n0 v frag =>
                     starts_with (visual_open_tag
                                    (scoped_name n0 (Visual_name v))) frag)
                  (fun v n0 p0 => Visual_to_urdf_run v n0 p0)
                  (fun v n0 p0 => Visual_to_urdf_raise v n0 p0)
                  (Link_visuals l) n p) as HV.
    rewrite Hposes in HV. destruct HV as (ws2 & H2).
    exists (ws1 ++ ws2)%list. intro w.
    unfold Link_urdf_body, bind, get_scoped_name.
    cbn [name_scopes pose_stack warnings]. rewrite H1, H2.
    now rewrite app_assoc.
  - destruct HC as (ws1 & H1). exists ws1. intro w.
    unfold Link_urdf_body, bind, get_scoped_name.
    cbn [name_scopes pose_stack warnings]. now rewrite H1.
Qed.

(** [Link._to_urdf] runs its body under the pose stack [link_body_poses]
    and then pops the pose stack once, whatever the body did. *)
Lemma Link_to_urdf_any (l : Link) (n : list string) (p : list Pose) :
  exists r ws,
    (forall w, Link_urdf_body l (mkContext n (link_body_poses l p) w)
               = (r, mkContext n (link_body_poses l p) (w ++ ws)%list)) /\
    forall w, Link_to_urdf l (mkContext n p w)
              = (r, mkContext n (tl (link_body_poses l p)) (w ++ ws)%list).
Proof.
  destruct (steady_Link_urdf_body l n (link_body_poses l p)) as (r & ws & Hbody).
  exists r, ws. split; [exact Hbody|].
  intro w. unfold Link_to_urdf, bind, try_finally, Link_urdf_enter.
  unfold link_body_poses in *.
  destruct (Link_pose l) as [lp|]; unfold push_scoped_pose, pop_scoped_pose, ret;
    cbn [name_scopes pose_stack warnings]; rewrite Hbody; reflexivity.
Qed.

(** [Link._to_urdf] for a link whose geometry has its poses returns the
    fragment of its body. *)
Lemma Link_to_urdf_run (l : Link) (n : list string) (p : list Pose) :
  link_has_poses l = true ->
  exists frag ws,
    starts_with (link_open_tag (scoped_name n (Link_name l))) frag /\
    (forall w, Link_urdf_body l (mkContext n (link_body_poses l p) w)
               = (inr frag, mkContext n (link_body_poses l p) (w ++ ws)%list)) /\
    forall w, Link_to_urdf l (mkContext n p w)
              = (inr frag, mkContext n (tl (link_body_poses l p)) (w ++ ws)%list).
Proof.
  intro Hposes.
  destruct (Link_urdf_body_parts l n (link_body_poses l p) Hposes)
    as (cs & vs & ins & ws & _ & _ & Hparts).
  destruct (Link_to_urdf_any l n p) as (r & ws' & Hbody & Hr).
  pose proof (Hbody []) as E. rewrite (Hparts []) in E.
  injection E as <- E. cbn in E. subst ws'.
  eexists. exists ws. split; [|split; [exact Hbody | exact Hr]].
  unfold starts_with, link_open_tag, link_element. eexists.
  rewrite !append_assoc. reflexivity.
Qed.

Lemma Link_to_urdf_raise (l : Link) (n : list string) (p : list Pose) :
  link_has_poses l = false ->
  exists ws,
    forall w, Link_to_urdf l (mkContext n p w)
              = (inl no_to_urdf,
                 mkContext n (tl (link_body_poses l p)) (w ++ ws)%list).
Proof.
  intro Hposes.
  destruct (Link_urdf_body_raise l n (link_body_poses l p) Hposes) as (ws & Hraise).
  destruct (Link_to_urdf_any l n p) as (r & ws' & Hbody & Hr).
  pose proof (Hbody []) as E. rewrite (Hraise []) in E.
  injection E as <- E. cbn in E. subst ws'.
  exists ws. exact Hr.
Qed.

Lemma link_body_poses_tl (l : Link) :
  tl (link_body_poses l []) = [].
Proof. unfold link_body_poses. now destruct (Link_pose l). Qed.

Lemma scoped_Link_to_urdf (l : Link) : scoped (Link_to_urdf l).
Proof.
  intros n p. destruct (Link_to_urdf_any l n p) as (r & ws & _ & H).
  exists r, (tl (link_body_poses l p)), ws. split; [|exact H].
  intros ->. apply link_body_poses_tl.
Qed.

(** A joint that has a name renders to URDF in a framed step, and the
    three names of the element are scoped by the same stack. *)
Lemma Joint_to_urdf_run (j : Joint) (own : string) (n : list string)
    (p : list Pose) :
  Joint_name j = Some own ->
  exists frag ws,
    starts_with (joint_open_tags (scoped_name n own) (Joint_type j)
                   (scoped_name n (Joint_parent j))
                   (scoped_name n (Joint_child j))) frag /\
    forall w, Joint_to_urdf j (mkContext n p w)
              = (inr frag, mkContext n p (w ++ ws)%list).
Proof.
  intro Hname.
  destruct (framed_leaf Pose_to_urdf (Joint_pose j) n p) as (ps & ws1 & H1).
  destruct (framed_indented None _
              (framed_leaf JointInfo_to_urdf (Joint_joint_info j)) n p)
    as (js & ws2 & H2).
  destruct (framed_if_some
              (fun c => indented None (leaf JointControlInfo_to_urdf c))
              (Joint_control_info j)
              (fun c => framed_indented None _ (framed_leaf _ c)) n p)
    as (cs & ws3 & H3).
  eexists. exists (ws1 ++ ws2 ++ ws3)%list. split.
  2:{ intro w. unfold Joint_to_urdf. rewrite Hname.
      unfold bind, get_scoped_name. cbn.
      rewrite H1. cbn. rewrite H2. cbn. rewrite H3. cbn.
      unfold ret. rewrite <- !app_assoc. reflexivity. }
  unfold starts_with, joint_open_tags. eexists.
  rewrite !append_assoc. cbn. reflexivity.
Qed.

Lemma scoped_Joint_to_urdf (j : Joint) : scoped (Joint_to_urdf j).
Proof.
  destruct (Joint_name j) as [own|] eqn:Hname.
  - intros n p. destruct (Joint_to_urdf_run j own n p Hname) as (frag & ws & _ & H).
    exists (inr frag), p, ws. split; [tauto | exact H].
  - unfold Joint_to_urdf. rewrite Hname. apply scoped_raise.
Qed.

(** A list comprehension over steps that succeed on every element of the
    list satisfying [P]: the results are related to the elements by the
    postcondition [Q], stated for the name scopes [n], which do not change,
    and the pose stack [p0] the element is entered with. *)
Lemma mapM_run {A B : Type} (f : A -> M B) (P : A -> Prop)
    (Q : list string -> list Pose -> A -> B -> Prop) :
  (forall x n p, P x ->
     exists b p' ws,
       Q n p x b /\ (p = [] -> p' = []) /\
       forall w, f x (mkContext n p w) = (inr b, mkContext n p' (w ++ ws)%list)) ->
  forall xs n p, Forall P xs ->
    exists bs p' ws,
      Forall2 (fun x b => exists p0, (p = [] -> p0 = []) /\ Q n p0 x b) xs bs /\
      (p = [] -> p' = []) /\
      forall w, mapM f xs (mkContext n p w)
                = (inr bs, mkContext n p' (w ++ ws)%list).
Proof.
  intros Hf xs n. induction xs as [|x xs IH]; intros p HP.
  - exists [], p, []. split; [constructor|]. split; [tauto|].
    intro w. cbn. unfold ret. now rewrite app_nil_r.
  - inversion HP as [|? ? Hx Hxs]; subst.
    destruct (Hf x n p Hx) as (b & p1 & ws1 & HQ & Hp1 & Hrun).
    destruct (IH p1 Hxs) as (bs & p2 & ws2 & HQs & Hp2 & Hruns).
    exists (b :: bs), p2, (ws1 ++ ws2)%list. split; [|split].
    + constructor.
      * exists p. split; [tauto | exact HQ].
      * eapply Forall2_impl; [|exact HQs].
        intros a0 b0 (p0 & Hp0 & HQ0). exists p0. split; [auto | exact HQ0].
    + auto.
    + intro w. cbn. unfold bind. rewrite Hrun, Hruns.
      unfold ret. now rewrite app_assoc.
Qed.

(** What [Model._to_urdf] does before its [try]: the diagnostics of the
    fields that are set, then the push of the name. *)
Lemma Model_urdf_enter_run (m : Model) (n : list string) (p : list Pose)
    (w : list Diagnostic) :
  Model_urdf_enter m (mkContext n p w)
  = (inr tt, mkContext (Model_name m :: n) p (w ++ Model_urdf_warnings m)%list).
Proof.
  unfold Model_urdf_enter, Model_urdf_warnings, bind, warning, ret,
    push_scoped_name.
  destruct (Model_pose m), (Model_parent m), (Model_static m);
    cbn [name_scopes pose_stack warnings app];
    rewrite <- ?app_assoc, ?app_nil_r; reflexivity.
Qed.

Lemma links_run (ls : list Link) (n : list string) (p : list Pose) :
  forallb link_has_poses ls = true ->
  exists frags p' ws,
    Forall2 (fun l frag => exists p0, (p = [] -> p0 = []) /\
                                      link_rendered n p0 l frag) ls frags /\
    (p = [] -> p' = []) /\
    forall w, mapM Link_to_urdf ls (mkContext n p w)
              = (inr frags, mkContext n p' (w ++ ws)%list).
Proof.
  intro Hposes.
  apply (mapM_run Link_to_urdf (fun l => link_has_poses l = true) link_rendered).
  - intros l n0 p0 Hl.
    destruct (Link_to_urdf_run l n0 p0 Hl) as (frag & ws & Hs & Hb & Hr).
    exists frag, (tl (link_body_poses l p0)), ws. split; [|split].
    + split; [exact Hs|]. intro w. now rewrite Hb.
    + intros ->. apply link_body_poses_tl.
    + exact Hr.
  - apply Forall_forall. intros l Hin.
    exact (proj1 (forallb_forall _ _) Hposes l Hin).
Qed.

(** A list of links, one of which holds geometry without a pose, raises
    the lookup on [None]. *)
Lemma links_raise (ls : list Link) (n : list string) (p : list Pose) :
  forallb link_has_poses ls = false ->
  exists p' ws,
    forall w, mapM Link_to_urdf ls (mkContext n p w)
              = (inl no_to_urdf, mkContext n p' (w ++ ws)%list).
Proof.
  revert p. induction ls as [|l ls IH]; intros p Hposes; [discriminate|].
  cbn [forallb] in Hposes.
  destruct (link_has_poses l) eqn:Hl.
  - destruct (Link_to_urdf_run l n p Hl) as (frag & ws1 & _ & _ & Hr).
    destruct (IH (tl (link_body_poses l p)) Hposes) as (p' & ws2 & Hrun).
    exists p', (ws1 ++ ws2)%list. intro w. cbn. unfold bind.
    rewrite Hr, Hrun. now rewrite app_assoc.
  - destruct (Link_to_urdf_raise l n p Hl) as (ws1 & Hr).
    exists (tl (link_body_poses l p)), ws1. intro w. cbn. unfold bind.
    now rewrite Hr.
Qed.

Lemma joints_run (js : list Joint) (n : list string) (p : list Pose) :
  (forall j, In j js -> Joint_name j <> None) ->
  exists frags ws,
    Forall2 (joint_rendered n) js frags /\
    forall w, mapM Joint_to_urdf js (mkContext n p w)
              = (inr frags, mkContext n p (w ++ ws)%list).
Proof.
  induction js as [|j js IH]; intro Hnamed.
  - exists [], []. split; [constructor|].
    intro w. cbn. unfold ret. now rewrite app_nil_r.
  - destruct (Joint_name j) as [own|] eqn:Hown.
    2:{ exfalso. apply (Hnamed j); [now left | exact Hown]. }
    destruct (Joint_to_urdf_run j own n p Hown) as (frag & ws1 & Hs & Hr).
    destruct IH as (frags & ws2 & HQ & Hrun).
    { intros j' Hj'. apply Hnamed. now right. }
    exists (frag :: frags), (ws1 ++ ws2)%list. split.
    + constructor; [|exact HQ]. exists own. split; [exact Hown | exact Hs].
    + intro w. cbn. unfold bind. rewrite Hr, Hrun.
      unfold ret. now rewrite app_assoc.
Qed.

(** A list of joints, one of which has no name, raises the assertion. *)
Lemma joints_raise (js : list Joint) (n : list string) (p : list Pose) :
  (exists j, In j js /\ Joint_name j = None) ->
  exists ws, forall w,
    mapM Joint_to_urdf js (mkContext n p w)
    = (inl (AssertionError EmptyString), mkContext n p (w ++ ws)%list).
Proof.
  induction js as [|j js IH]; intros (j0 & Hin & Hnone).
  - destruct Hin.
  - destruct (Joint_name j) as [own|] eqn:Hown.
    + destruct (Joint_to_urdf_run j own n p Hown) as (frag & ws1 & _ & Hr).
      destruct IH as (ws2 & Hrun).
      { destruct Hin as [-> | Hin]; [congruence|]. now exists j0. }
      exists (ws1 ++ ws2)%list. intro w. cbn. unfold bind.
      rewrite Hr, Hrun. now rewrite app_assoc.
    + exists []. intro w. cbn. unfold bind, Joint_to_urdf. rewrite Hown.
      unfold raise. now rewrite app_nil_r.
Qed.

(** Whether every joint of a list has a name can be decided. *)
Lemma joints_named_dec (js : list Joint) :
  (forall j, In j js -> Joint_name j <> None) \/
  (exists j, In j js /\ Joint_name j = None).
Proof.
  induction js as [|j js [IH | (j0 & Hin & Hnone)]].
  - left. intros j [].
  - destruct (Joint_name j) as [own|] eqn:Hown.
    + left. intros j' [<- | Hj']; [congruence | now apply IH].
    + right. exists j. split; [now left | exact Hown].
  - right. exists j0. split; [now right | exact Hnone].
Qed.

(** [Model._to_urdf] is its body, run after the diagnostics and the push
    of the name, followed by the pop of the name on every exit. *)
Lemma Model_to_urdf_unfold (m : Model) (n : list string) (p : list Pose)
    (w : list Diagnostic) :
  Model_to_urdf m (mkContext n p w)
  = let (r, c) :=
      Model_urdf_body m
        (mkContext (Model_name m :: n) p (w ++ Model_urdf_warnings m)%list) in
    (r, mkContext (tl (name_scopes c)) (pose_stack c) (warnings c)).
Proof.
  unfold Model_to_urdf, bind at 1. rewrite Model_urdf_enter_run.
  unfold try_finally, pop_scoped_name.
  destruct (Model_urdf_body m _) as [r c]. reflexivity.
Qed.

Lemma scoped_Model_urdf_body (m : Model) : scoped (Model_urdf_body m).
Proof.
  unfold Model_urdf_body.
  apply scoped_bind; [apply scoped_mapM, scoped_Link_to_urdf|]. intro ls.
  apply scoped_bind; [apply scoped_mapM, scoped_Joint_to_urdf|]. intro js.
  apply framed_scoped, framed_ret.
Qed.

(** [Model._to_urdf] for a model whose geometry has its poses, step by
    step: the diagnostics and the push, the links, then the joints, and the
    pop on every exit. *)
Lemma Model_to_urdf_run (m : Model) (n : list string) (p : list Pose) :
  model_has_poses m = true ->
  exists frags p1 ws1,
    Forall2 (fun l frag => exists p0, (p = [] -> p0 = []) /\
               link_rendered (Model_name m :: n) p0 l frag)
            (Model_links m) frags /\
    (p = [] -> p1 = []) /\
    (forall w, mapM Link_to_urdf (Model_links m)
                 (mkContext (Model_name m :: n) p w)
               = (inr frags, mkContext (Model_name m :: n) p1 (w ++ ws1)%list)) /\
    forall w,
      Model_to_urdf m (mkContext n p w)
      = let (rj, cj) :=
          mapM Joint_to_urdf (Model_joints m)
            (mkContext (Model_name m :: n) p1
               ((w ++ Model_urdf_warnings m) ++ ws1)%list) in
        (match rj with
         | inl e => inl e
         | inr joint_strs =>
             inr (robot_element (Model_name m) (py_join nl frags)
                    (py_join nl joint_strs))
         end,
         mkContext (tl (name_scopes cj)) (pose_stack cj) (warnings cj)).
Proof.
  intro Hposes.
  destruct (links_run (Model_links m) (Model_name m :: n) p Hposes)
    as (frags & p1 & ws1 & HQ & Hp1 & Hrun).
  exists frags, p1, ws1. repeat split; try assumption.
  intro w. rewrite Model_to_urdf_unfold.
  unfold Model_urdf_body, bind at 1. rewrite Hrun.
  unfold bind, ret.
  destruct (mapM Joint_to_urdf (Model_joints m) _) as [[e | joint_strs] cj];
    reflexivity.
Qed.

Lemma scoped_Model_to_urdf (m : Model) : scoped (Model_to_urdf m).
Proof.
  intros n p.
  destruct (scoped_Model_urdf_body m (Model_name m :: n) p)
    as (r & p' & ws & Hp' & Hr).
  exists r, p', (Model_urdf_warnings m ++ ws)%list. split; [exact Hp'|].
  intro w. rewrite Model_to_urdf_unfold, Hr. cbn.
  now rewrite <- app_assoc.
Qed.

(** Every entity renders to URDF in a scoped step. *)
Lemma scoped_to_urdf (e : Entity) : scoped (to_urdf e).
Proof.
  destruct e; cbn [to_urdf];
    try solve
      [ apply framed_scoped;
        unfold SurfaceContact_to_urdf, SurfaceFriction_to_urdf,
          JointAxisState_to_urdf, JointState_to_urdf,
          LinkState_to_urdf, ModelState_to_urdf, WorldState_to_urdf;
        framed_tac ].
  - apply steady_scoped, steady_Collision_to_urdf.
  - apply steady_scoped, steady_Visual_to_urdf.
  - apply scoped_Link_to_urdf.
  - apply scoped_Joint_to_urdf.
  - apply scoped_Model_to_urdf.
  - apply scoped_raise.
Qed.

Lemma scoped_render (fmt : Format) (e : Entity) : scoped (render fmt e).
Proof.
  destruct fmt; cbn [render].
  - apply framed_scoped, framed_to_sdf.
  - apply scoped_to_urdf.
Qed.

Lemma scoped_name_prefix (scopes : list string) (name : string) :
  scoped_name scopes name = scope_prefix scopes ++ name.
Proof.
  unfold scoped_name, scope_prefix, py_join.
  induction (rev scopes) as [|s l IH]; [reflexivity|].
  cbn [app fold_right]. rewrite !append_assoc, <- IH.
  destruct l; reflexivity.
Qed.

Lemma Forall2_In_combine {A B : Type} (Q : A -> B -> Prop) (xs : list A)
    (ys : list B) (x : A) :
  Forall2 Q xs ys -> In x xs -> exists y, In (x, y) (combine xs ys) /\ Q x y.
Proof.
  induction 1 as [|x0 y0 xs ys HQ _ IH]; intros Hin; [destruct Hin|].
  destruct Hin as [-> | Hin].
  - exists y0. split; [now left | exact HQ].
  - destruct (IH Hin) as (y & Hy & HQy). exists y. split; [now right | exact HQy].
Qed.

(* ===================================================================== *)
(** ** The claims *)
(* ===================================================================== *)

(** C1 (amended).  A model with a pose [mp] that holds a link [l] with a
    pose [lp] is rendered to URDF in a fresh context, with the default
    separator; its collisions and visuals have their poses.  The links
    render; the fragment of [l] opens with the
    flattened name [<model name>.<link name>], and it is the text the body of
    [Link._to_urdf] returns under the name scopes [[model name]] and the pose
    stack [[compose(identity, lp)]]: the pose of the model is not composed
    in, it is reported as ignored by a diagnostic.  The document, when the
    joints let the render return one, embeds the link fragments in the stored
    order. *)
Theorem Model_to_urdf_link_name_and_pose (m : Model) (l : Link) (mp lp : Pose) :
  NAME_SCOPE_SEP = default_sep ->
  model_has_poses m = true ->
  Model_pose m = Some mp ->
  In l (Model_links m) ->
  Link_pose l = Some lp ->
  exists frags frag body_ctx,
    fst (mapM Link_to_urdf (Model_links m)
           (snd (Model_urdf_enter m fresh_context))) = inr frags /\
    (forall s, fst (Model_to_urdf m fresh_context) = inr s ->
       exists joint_str,
         s = robot_element (Model_name m) (py_join nl frags) joint_str) /\
    In (l, frag) (combine (Model_links m) frags) /\
    starts_with (link_open_tag (Model_name m ++ "." ++ Link_name l)) frag /\
    fst (Link_urdf_body l body_ctx) = inr frag /\
    name_scopes body_ctx = [Model_name m] /\
    pose_stack body_ctx = [Pose_compose Pose_identity lp] /\
    In (EModel m, "Model::pose will be ignored in URDF.")
       (warnings (snd (Model_to_urdf m fresh_context))).
Proof.
  intros Hsep Hposes Hmp Hin Hlp.
  destruct (Model_to_urdf_run m [] [] Hposes)
    as (frags & p1 & ws1 & HQ & _ & Hlinks & Hrun).
  destruct (Forall2_In_combine _ _ _ l HQ Hin) as (frag & Hcomb & p0 & Hp0 & Hstart & Hbody).
  rewrite (Hp0 eq_refl) in Hbody.
  exists frags, frag, (mkContext [Model_name m] (link_body_poses l []) []).
  unfold fresh_context. repeat split.
  - rewrite Model_urdf_enter_run. cbn [snd]. now rewrite Hlinks.
  - intros s Hs. rewrite Hrun in Hs.
    destruct (mapM Joint_to_urdf (Model_joints m) _) as [[e | joint_strs] cj];
      cbn in Hs; [discriminate|].
    injection Hs as <-. now eexists.
  - exact Hcomb.
  - unfold scoped_name, py_join in Hstart. cbn in Hstart.
    rewrite Hsep in Hstart. exact Hstart.
  - apply Hbody.
  - unfold link_body_poses. now rewrite Hlp.
  - destruct (scoped_mapM Joint_to_urdf (Model_joints m) scoped_Joint_to_urdf
                (Model_name m :: []) p1) as (rj & p2 & ws2 & _ & Hj).
    rewrite Hrun, Hj. cbn [snd warnings].
    unfold Model_urdf_warnings. rewrite Hmp. cbn. now left.
Qed.

(** C2.  Whatever the entity and the format, a render that starts with an
    empty name-scope stack and an empty pose stack ends with both empty,
    whether it returns a fragment or raises: the context that a raised
    exception leaves behind is the one inspected here. *)
Theorem render_leaves_stacks_empty (fmt : Format) (e : Entity)
    (ctx : StringifyContext) :
  name_scopes ctx = [] ->
  pose_stack ctx = [] ->
  name_scopes (snd (render fmt e ctx)) = [] /\
  pose_stack (snd (render fmt e ctx)) = [].
Proof.
  destruct ctx as [n p w]. cbn. intros -> ->.
  destruct (scoped_render fmt e [] []) as (r & p' & ws & Hp' & Hr).
  rewrite Hr. cbn. split; [reflexivity | now apply Hp'].
Qed.

(** C3.  Rendering an include to URDF raises [ValueError] and leaves the
    context as it was; rendering it to SDF returns a fragment that contains
    the URI and the scale text: the scalar scale between the scale tags when
    it is set, the three components of the scale, separated by blanks,
    otherwise. *)
Theorem SDFInclude_urdf_raises_sdf_renders (i : SDFInclude)
    (ctx : StringifyContext) :
  to_urdf (ESDFInclude i) ctx
    = (inl (ValueError "Include tags is not supported for URDF."), ctx) /\
  exists s,
    fst (to_sdf (ESDFInclude i) ctx) = inr s /\
    contains (SDFInclude_uri i) s /\
    contains (match SDFInclude_scale1d i with
              | Some k => "<scale>" ++ num_str k ++ "</scale>"
              | None =>
                  "<scale>" ++ num_str (fst (fst (SDFInclude_scale i)))
                    ++ " " ++ num_str (snd (fst (SDFInclude_scale i)))
                    ++ " " ++ num_str (snd (SDFInclude_scale i)) ++ "</scale>"
              end) s.
Proof.
  split; [reflexivity|].
  destruct ctx as [n p w].
  destruct (framed_if_some (leaf Pose_to_sdf) (SDFInclude_pose i)
              (framed_leaf Pose_to_sdf) n p) as (pose_s & ws & Hpose).
  cbn [to_sdf]. unfold SDFInclude_to_sdf, bind. rewrite Hpose.
  unfold ret. cbn [fst]. eexists. split; [reflexivity|]. split.
  - exists ("<include"
            ++ match SDFInclude_name i with
               | Some n0 => " name=" ++ dq ++ n0 ++ dq
               | None => EmptyString
               end ++ dq ++ ">" ++ nl ++ "  <uri>").
    eexists. rewrite !append_assoc. reflexivity.
  - exists ("<include"
            ++ match SDFInclude_name i with
               | Some n0 => " name=" ++ dq ++ n0 ++ dq
               | None => EmptyString
               end ++ dq ++ ">" ++ nl
            ++ "  <uri>" ++ SDFInclude_uri i ++ "</uri>" ++ nl
            ++ "  <static>" ++ py_bool_str (SDFInclude_static i) ++ "</static>" ++ nl
            ++ "  ").
    eexists.
    destruct (SDFInclude_scale1d i) as [k|].
    + rewrite !append_assoc. reflexivity.
    + destruct (SDFInclude_scale i) as [[s0 s1] s2]. cbn [fst snd].
      rewrite !append_assoc. reflexivity.
Qed.

(** C5.  Rendering a model to URDF appends, before anything its links and
    joints report, one diagnostic for each of pose, parent and static flag
    that is set, and the step that does so does not raise.  None of the
    three fields reaches the fragment, and none makes the render fail: the
    outcome is the one the same model with the three fields unset has.  For a
    model whose joints have their names and whose collisions and visuals
    their poses, the render returns a fragment. *)
Theorem Model_to_urdf_ignored_fields (m : Model) (ctx : StringifyContext) :
  let unset :=
    mkModel (Model_name m) None None false (Model_links m) (Model_joints m) in
  (exists rest,
     warnings (snd (Model_to_urdf m ctx))
     = (warnings ctx ++ Model_urdf_warnings m ++ rest)%list) /\
  fst (Model_urdf_enter m ctx) = inr tt /\
  fst (Model_to_urdf m ctx) = fst (Model_to_urdf unset ctx) /\
  (model_has_poses m = true ->
   (forall j, In j (Model_joints m) -> Joint_name j <> None) ->
   exists s, fst (Model_to_urdf m ctx) = inr s).
Proof.
  intro unset. destruct ctx as [n p w].
  destruct (scoped_Model_urdf_body m (Model_name m :: n) p)
    as (r & p' & ws & _ & Hr).
  split; [|split; [|split]].
  - exists ws. rewrite Model_to_urdf_unfold, Hr. cbn.
    now rewrite <- app_assoc.
  - now rewrite Model_urdf_enter_run.
  - rewrite !Model_to_urdf_unfold.
    cbn [unset Model_name].
    change (Model_urdf_body unset) with (Model_urdf_body m).
    now rewrite !Hr.
  - intros Hposes Hnamed.
    destruct (Model_to_urdf_run m n p Hposes)
      as (frags & p1 & ws1 & _ & _ & _ & Hrun).
    destruct (joints_run (Model_joints m) (Model_name m :: n) p1 Hnamed)
      as (jfrags & ws2 & _ & Hj).
    rewrite Hrun, Hj. now eexists.
Qed.

(** C6.  An entity that only the nesting format expresses (the surface
    properties, and each state snapshot) renders to URDF as the empty
    fragment, appends one diagnostic about itself, touches neither stack and
    does not raise. *)
Theorem nesting_only_to_urdf (e : Entity) (ctx : StringifyContext) :
  nesting_only e = true ->
  exists message,
    to_urdf e ctx
    = (inr EmptyString,
       mkContext (name_scopes ctx) (pose_stack ctx)
                 (warnings ctx ++ [(e, message)])%list).
Proof.
  destruct e; cbn [nesting_only]; try discriminate; intros _;
    eexists; reflexivity.
Qed.

(** C7.  A joint without a name renders to SDF, as an element whose opening
    tag has the type and no name attribute, and raises the assertion in
    URDF, before anything is added to the context; a joint with a name
    renders to URDF, so the assertion is out of reach for it. *)
Theorem Joint_name_absent_or_present (j : Joint) (ctx : StringifyContext) :
  match Joint_name j with
  | None =>
      (exists s, fst (Joint_to_sdf j ctx) = inr s /\
                 starts_with ("<joint type=" ++ dq ++ Joint_type j ++ dq ++ ">") s) /\
      Joint_to_urdf j ctx = (inl (AssertionError EmptyString), ctx)
  | Some own =>
      exists s, fst (Joint_to_urdf j ctx) = inr s /\
                starts_with ("<joint name=" ++ dq
                               ++ scoped_name (name_scopes ctx) own ++ dq) s
  end.
Proof.
  destruct ctx as [n p w].
  destruct (Joint_name j) as [own|] eqn:Hname.
  - destruct (Joint_to_urdf_run j own n p Hname) as (frag & ws & (rest & Hs) & Hr).
    exists frag. rewrite Hr. split; [reflexivity|].
    rewrite Hs. unfold joint_open_tags. eexists.
    rewrite !append_assoc. reflexivity.
  - split.
    + destruct (framed_leaf Pose_to_sdf (Joint_pose j) n p) as (ps & ws1 & H1).
      destruct (framed_indented None _
                  (framed_leaf JointInfo_to_sdf (Joint_joint_info j)) n p)
        as (js & ws2 & H2).
      destruct (framed_if_some
                  (fun c => indented None (leaf JointControlInfo_to_sdf c))
                  (Joint_control_info j)
                  (fun c => framed_indented None _ (framed_leaf _ c)) n p)
        as (cs & ws3 & H3).
      unfold Joint_to_sdf. rewrite Hname. unfold bind.
      rewrite H1, H2, H3. unfold ret. cbn [fst].
      eexists. split; [reflexivity|].
      eexists. cbn [append]. rewrite !append_assoc. reflexivity.
    + unfold Joint_to_urdf. rewrite Hname. reflexivity.
Qed.

(** C9.  For a shape type that [ShapeInfo.from_type] accepts,
    [Link.from_simple_geom] returns a link with the given name, without pose
    and parent, with one collision named [<name>_collision] and one visual
    named [<name>_visual], both with the given pose and the shape built from
    the shape type, the visual with the given colour as its RGBA material. *)
Theorem Link_from_simple_geom_spec (name : string) (pose : option Pose)
    (shape_type : string) (r g b a : PyNum) (inertial : option Inertial)
    (kwargs : ShapeKwargs) (shape : ShapeInfo) :
  ShapeInfo_from_type shape_type kwargs = inr shape ->
  exists l,
    Link_from_simple_geom name pose shape_type (r, g, b, a) inertial kwargs = inr l /\
    Link_name l = name /\
    Link_pose l = None /\
    Link_parent l = None /\
    Link_collisions l = [mkCollision (name ++ "_collision") pose shape None] /\
    Link_visuals l
      = [mkVisual (name ++ "_visual") pose shape (Some (RGBA r g b a))].
Proof.
  intro Hshape. unfold Link_from_simple_geom. rewrite Hshape.
  eexists. repeat split.
Qed.

(** C10.  A joint with a name, rendered to URDF under any stack of name
    scopes, puts the same scope prefix before its own name and before the
    names of its parent and child links.  In a model whose joints all have
    names, and whose collisions and visuals have their poses, every link and
    every joint is rendered under the scopes of the
    model: the link elements carry that prefix before the link names, and
    the parent and child references of the joints carry it too. *)
Theorem Joint_to_urdf_names_share_scope :
  (forall (j : Joint) (own : string) (ctx : StringifyContext),
     Joint_name j = Some own ->
     let prefix := scope_prefix (name_scopes ctx) in
     exists frag,
       fst (Joint_to_urdf j ctx) = inr frag /\
       starts_with (joint_open_tags (prefix ++ own) (Joint_type j)
                      (prefix ++ Joint_parent j) (prefix ++ Joint_child j))
                   frag) /\
  (forall (m : Model) (ctx : StringifyContext),
     model_has_poses m = true ->
     (forall j, In j (Model_joints m) -> Joint_name j <> None) ->
     let prefix := scope_prefix (Model_name m :: name_scopes ctx) in
     exists link_frags joint_frags,
       fst (Model_to_urdf m ctx)
       = inr (robot_element (Model_name m) (py_join nl link_frags)
                (py_join nl joint_frags)) /\
       Forall2 (fun l frag =>
                  starts_with (link_open_tag (prefix ++ Link_name l)) frag)
               (Model_links m) link_frags /\
       Forall2 (fun j frag =>
                  exists own,
                    Joint_name j = Some own /\
                    starts_with (joint_open_tags (prefix ++ own) (Joint_type j)
                                   (prefix ++ Joint_parent j)
                                   (prefix ++ Joint_child j)) frag)
               (Model_joints m) joint_frags).
Proof.
  split.
  - intros j own [n p w] Hname prefix. subst prefix. cbn [name_scopes].
    destruct (Joint_to_urdf_run j own n p Hname) as (frag & ws & Hs & Hr).
    exists frag. rewrite Hr. split; [reflexivity|].
    now rewrite <- !scoped_name_prefix.
  - intros m [n p w] Hposes Hnamed prefix. subst prefix. cbn [name_scopes].
    destruct (Model_to_urdf_run m n p Hposes)
      as (frags & p1 & ws1 & HQ & _ & _ & Hrun).
    destruct (joints_run (Model_joints m) (Model_name m :: n) p1 Hnamed)
      as (jfrags & ws2 & HJ & Hjr).
    exists frags, jfrags. rewrite Hrun, Hjr. split; [reflexivity|]. split.
    + eapply Forall2_impl; [|exact HQ].
      intros l frag (p0 & _ & Hs & _). now rewrite <- scoped_name_prefix.
    + eapply Forall2_impl; [|exact HJ].
      intros j frag (own & Hown & Hs). exists own. split; [exact Hown|].
      now rewrite <- !scoped_name_prefix.
Qed.

(* ===================================================================== *)
(** ** More properties of the renderers *)
(* ===================================================================== *)

Lemma Link_to_sdf_run (l : Link) (n : list string) (p : list Pose) :
  exists frag ws,
    starts_with ("<link name=" ++ dq ++ Link_name l ++ dq ++ ">") frag /\
    forall w, Link_to_sdf l (mkContext n p w)
              = (inr frag, mkContext n p (w ++ ws)%list).
Proof.
  destruct (framed_mapM Collision_to_sdf (Link_collisions l)
              framed_Collision_to_sdf n p) as (cs & ws1 & H1).
  destruct (framed_mapM Visual_to_sdf (Link_visuals l)
              framed_Visual_to_sdf n p) as (vs & ws2 & H2).
  destruct (framed_if_some (leaf Pose_to_sdf) (Link_pose l)
              (framed_leaf Pose_to_sdf) n p) as (ps & ws3 & H3).
  destruct (framed_if_some (fun i => indented None (Inertial_to_sdf i))
              (Link_inertial l)
              (fun i => framed_indented None _ (framed_Inertial_to_sdf i)) n p)
    as (ins & ws4 & H4).
  eexists. exists (ws1 ++ ws2 ++ ws3 ++ ws4)%list. split.
  2:{ intro w. unfold Link_to_sdf, bind. rewrite H1, H2, H3, H4.
      unfold ret. rewrite <- !app_assoc. reflexivity. }
  unfold starts_with. eexists. rewrite !append_assoc. reflexivity.
Qed.

Lemma Joint_to_sdf_run (j : Joint) (n : list string) (p : list Pose) :
  exists frag ws,
    starts_with (joint_sdf_open_tags j) frag /\
    forall w, Joint_to_sdf j (mkContext n p w)
              = (inr frag, mkContext n p (w ++ ws)%list).
Proof.
  destruct (framed_leaf Pose_to_sdf (Joint_pose j) n p) as (ps & ws1 & H1).
  destruct (framed_indented None _
              (framed_leaf JointInfo_to_sdf (Joint_joint_info j)) n p)
    as (js & ws2 & H2).
  destruct (framed_if_some
              (fun c => indented None (leaf JointControlInfo_to_sdf c))
              (Joint_control_info j)
              (fun c => framed_indented None _ (framed_leaf _ c)) n p)
    as (cs & ws3 & H3).
  eexists. exists (ws1 ++ ws2 ++ ws3)%list. split.
  2:{ intro w. unfold Joint_to_sdf, bind. rewrite H1, H2, H3.
      unfold ret. rewrite <- !app_assoc. reflexivity. }
  unfold starts_with, joint_sdf_open_tags. eexists.
  rewrite !append_assoc. reflexivity.
Qed.

(** [Model._to_sdf], with the fragments of its links and joints. *)
Lemma Model_to_sdf_run (m : Model) (n : list string) (p : list Pose) :
  exists link_strs joint_strs pose_s ws,
    Forall2 (fun l frag =>
               starts_with ("<link name=" ++ dq ++ Link_name l ++ dq ++ ">") frag)
            (Model_links m) link_strs /\
    Forall2 (fun j frag => starts_with (joint_sdf_open_tags j) frag)
            (Model_joints m) joint_strs /\
    forall w, Model_to_sdf m (mkContext n p w)
              = (inr (model_element (Model_name m) (Model_static m) pose_s
                        (py_join nl link_strs) (py_join nl joint_strs)),
                 mkContext n p (w ++ ws)%list).
Proof.
  destruct (mapM_framed_run Link_to_sdf
              (fun _ _ l frag =>
                 starts_with ("<link name=" ++ dq ++ Link_name l ++ dq ++ ">") frag)
              (fun l n0 p0 => Link_to_sdf_run l n0 p0)
              (Model_links m) n p) as (ls & ws1 & HL & H1).
  destruct (mapM_framed_run Joint_to_sdf
              (fun _ _ j frag => starts_with (joint_sdf_open_tags j) frag)
              (fun j n0 p0 => Joint_to_sdf_run j n0 p0)
              (Model_joints m) n p) as (js & ws2 & HJ & H2).
  destruct (framed_if_some (leaf Pose_to_sdf) (Model_pose m)
              (framed_leaf Pose_to_sdf) n p) as (ps & ws3 & H3).
  exists ls, js, ps, (ws1 ++ ws2 ++ ws3)%list.
  split; [exact HL|]. split; [exact HJ|].
  intro w. unfold Model_to_sdf, bind. rewrite H1, H2, H3.
  unfold ret, model_element. rewrite <- !app_assoc. reflexivity.
Qed.

Lemma framed_returns {A : Type} (c : M A) (ctx : StringifyContext) :
  framed c -> exists a, fst (c ctx) = inr a.
Proof.
  intro H. destruct ctx as [n p w]. destruct (H n p) as (a & ws & Ha).
  exists a. now rewrite Ha.
Qed.

Lemma existsb_unnamed_false (js : list Joint) :
  existsb unnamed js = false -> forall j, In j js -> Joint_name j <> None.
Proof.
  intros H j Hin Hnone.
  assert (Ht : existsb unnamed js = true).
  { apply existsb_exists. exists j. split; [exact Hin|].
    unfold unnamed. now rewrite Hnone. }
  congruence.
Qed.

Lemma existsb_unnamed_true (js : list Joint) :
  existsb unnamed js = true -> exists j, In j js /\ Joint_name j = None.
Proof.
  intro H. apply existsb_exists in H. destruct H as (j & Hin & Hu).
  exists j. split; [exact Hin|]. unfold unnamed in Hu.
  now destruct (Joint_name j).
Qed.

(** The outcome of [Model._to_urdf]: the links are rendered first, so a
    missing pose is met before a missing name. *)
Lemma Model_to_urdf_outcome (m : Model) (n : list string) (p : list Pose)
    (w : list Diagnostic) :
  (model_has_poses m = false /\
   fst (Model_to_urdf m (mkContext n p w)) = inl no_to_urdf)
  \/
  (model_has_poses m = true /\
   existsb unnamed (Model_joints m) = true /\
   fst (Model_to_urdf m (mkContext n p w)) = inl (AssertionError EmptyString))
  \/
  (model_has_poses m = true /\
   existsb unnamed (Model_joints m) = false /\
   exists link_strs joint_strs,
     fst (Model_to_urdf m (mkContext n p w))
     = inr (robot_element (Model_name m) (py_join nl link_strs)
              (py_join nl joint_strs))).
Proof.
  destruct (model_has_poses m) eqn:Hposes.
  - right.
    destruct (Model_to_urdf_run m n p Hposes)
      as (frags & p1 & ws1 & _ & _ & _ & Hrun).
    destruct (existsb unnamed (Model_joints m)) eqn:Hun.
    + left. repeat split.
      destruct (joints_raise (Model_joints m) (Model_name m :: n) p1
                  (existsb_unnamed_true _ Hun)) as (ws2 & Hj).
      now rewrite Hrun, Hj.
    + right. repeat split.
      destruct (joints_run (Model_joints m) (Model_name m :: n) p1
                  (existsb_unnamed_false _ Hun)) as (jfrags & ws2 & _ & Hj).
      exists frags, jfrags. now rewrite Hrun, Hj.
  - left. split; [reflexivity|].
    destruct (links_raise (Model_links m) (Model_name m :: n) p Hposes)
      as (p' & ws & Hl).
    rewrite Model_to_urdf_unfold. unfold Model_urdf_body, bind.
    now rewrite Hl.
Qed.

Lemma to_urdf_returns (e : Entity) (ctx : StringifyContext) :
  raises_in_urdf e = false -> exists s, fst (to_urdf e ctx) = inr s.
Proof.
  destruct e; cbn [raises_in_urdf to_urdf]; intro H; try discriminate;
    try solve
      [ apply framed_returns;
        unfold SurfaceContact_to_urdf, SurfaceFriction_to_urdf,
          JointAxisState_to_urdf, JointState_to_urdf,
          LinkState_to_urdf, ModelState_to_urdf, WorldState_to_urdf;
        framed_tac ];
    destruct ctx as [n p w].
  - apply negb_false_iff in H.
    destruct (Collision_to_urdf_run x n p H) as (frag & ws & _ & Hr).
    exists frag. now rewrite Hr.
  - apply negb_false_iff in H.
    destruct (Visual_to_urdf_run x n p H) as (frag & ws & _ & Hr).
    exists frag. now rewrite Hr.
  - apply negb_false_iff in H.
    destruct (Link_to_urdf_run x n p H) as (frag & ws & _ & _ & Hr).
    exists frag. now rewrite Hr.
  - unfold unnamed in H.
    destruct (Joint_name x) as [own|] eqn:Hown; [|discriminate].
    destruct (Joint_to_urdf_run x own n p Hown) as (frag & ws & _ & Hr).
    exists frag. now rewrite Hr.
  - apply orb_false_iff in H. destruct H as [Hp Hu].
    apply negb_false_iff in Hp.
    destruct (Model_to_urdf_outcome x n p w)
      as [(Hp' & _) | [(_ & Hu' & _) | (_ & _ & ls & js & Hr)]];
      [congruence | congruence | eexists; exact Hr].
Qed.

Lemma to_urdf_raises (e : Entity) (ctx : StringifyContext) :
  raises_in_urdf e = true -> fst (to_urdf e ctx) = inl (urdf_exception e).
Proof.
  destruct e; cbn [raises_in_urdf to_urdf urdf_exception]; intro H;
    try discriminate; try reflexivity; destruct ctx as [n p w].
  - apply negb_true_iff in H.
    destruct (Collision_to_urdf_raise x n p H) as (ws & Hr). now rewrite Hr.
  - apply negb_true_iff in H.
    destruct (Visual_to_urdf_raise x n p H) as (ws & Hr). now rewrite Hr.
  - apply negb_true_iff in H.
    destruct (Link_to_urdf_raise x n p H) as (ws & Hr). now rewrite Hr.
  - unfold unnamed in H. unfold Joint_to_urdf.
    destruct (Joint_name x); [discriminate | reflexivity].
  - destruct (Model_to_urdf_outcome x n p w)
      as [(Hp & Hr) | [(Hp & Hu & Hr) | (Hp & Hu & _)]];
      rewrite Hp in *; cbn in H; [exact Hr | exact Hr | congruence].
Qed.

Lemma append_empty_r (s : string) : s ++ EmptyString = s.
Proof. induction s as [|c s IH]; cbn; [reflexivity | now rewrite IH]. Qed.

Lemma append_lines_axis (xs : list JointAxisState) (fmt : string)
    (ctx : StringifyContext) :
  append_lines JointAxisState_to_sdf xs fmt ctx
  = (inr (fmt ++ axis_lines xs), ctx).
Proof.
  revert fmt. induction xs as [|a xs IH]; intro fmt; cbn [append_lines axis_lines fold_right].
  - unfold ret. now rewrite append_empty_r.
  - unfold bind, indented, JointAxisState_to_sdf, bind, ret.
    fold (JointAxisState_text a). rewrite IH.
    fold (axis_lines xs). now rewrite !append_assoc.
Qed.

(** The outcome of a render depends on the two stacks of the context it
    starts in, not on the diagnostics the context holds. *)
Lemma scoped_same_outcome {A : Type} (c : M A) (c1 c2 : StringifyContext) :
  scoped c ->
  name_scopes c1 = name_scopes c2 ->
  pose_stack c1 = pose_stack c2 ->
  fst (c c1) = fst (c c2) /\
  name_scopes (snd (c c1)) = name_scopes (snd (c c2)) /\
  pose_stack (snd (c c1)) = pose_stack (snd (c c2)).
Proof.
  intros Hc. destruct c1 as [n p w1], c2 as [n2 p2 w2]. cbn. intros <- <-.
  destruct (Hc n p) as (r & p' & ws & _ & Hr). now rewrite !Hr.
Qed.

(** X1.  Every entity renders to SDF: the render returns a fragment,
    whatever the context, leaves both stacks exactly as they were, also when
    they are not empty, and keeps the diagnostics it found. *)
Theorem to_sdf_returns_and_keeps_stacks (e : Entity) (ctx : StringifyContext) :
  exists s ws,
    to_sdf e ctx
    = (inr s,
       mkContext (name_scopes ctx) (pose_stack ctx) (warnings ctx ++ ws)%list).
Proof.
  destruct ctx as [n p w]. destruct (framed_to_sdf e n p) as (s & ws & H).
  exists s, ws. apply H.
Qed.

(** X2.  A render of any entity in either format, entered with any stack
    of name scopes, leaves that stack as it found it, whether it returns or
    raises. *)
Theorem render_restores_name_scopes (fmt : Format) (e : Entity)
    (ctx : StringifyContext) :
  name_scopes (snd (render fmt e ctx)) = name_scopes ctx.
Proof.
  destruct ctx as [n p w].
  destruct (scoped_render fmt e n p) as (r & p' & ws & _ & Hr).
  now rewrite Hr.
Qed.

(** X3.  A render never drops or reorders a diagnostic: the diagnostics it
    leaves are those it found, followed by the ones it added, also when it
    raises. *)
Theorem render_appends_diagnostics (fmt : Format) (e : Entity)
    (ctx : StringifyContext) :
  exists ws, warnings (snd (render fmt e ctx)) = (warnings ctx ++ ws)%list.
Proof.
  destruct ctx as [n p w].
  destruct (scoped_render fmt e n p) as (r & p' & ws & _ & Hr).
  exists ws. now rewrite Hr.
Qed.

(** X4.  [Link._to_urdf] leaves the pose stack as it found it when the
    link has a pose; for a link without a pose, which pushed nothing, the
    pop in the [finally] clause takes the top off the stack the link was
    entered with.  This holds whether the body returns or raises.  The body
    returns a fragment when every collision and visual of the link has a
    pose, and raises [AttributeError] otherwise. *)
Theorem Link_to_urdf_pose_stack (l : Link) (ctx : StringifyContext) :
  pose_stack (snd (Link_to_urdf l ctx))
  = match Link_pose l with
    | Some _ => pose_stack ctx
    | None => tl (pose_stack ctx)
    end /\
  if link_has_poses l
  then exists frag, fst (Link_to_urdf l ctx) = inr frag
  else fst (Link_to_urdf l ctx) = inl no_to_urdf.
Proof.
  destruct ctx as [n p w]. split.
  - destruct (Link_to_urdf_any l n p) as (r & ws & _ & Hr). rewrite Hr.
    unfold link_body_poses. now destruct (Link_pose l).
  - destruct (link_has_poses l) eqn:Hposes.
    + destruct (Link_to_urdf_run l n p Hposes) as (frag & ws & _ & _ & Hr).
      exists frag. now rewrite Hr.
    + destruct (Link_to_urdf_raise l n p Hposes) as (ws & Hr). now rewrite Hr.
Qed.

(** X5.  What a render returns or raises, and the stacks it leaves, depend
    on the two stacks of the context it starts in and not on the
    diagnostics that context holds: two contexts with the same stacks give
    the same outcome.  A context can so be used again for a second render. *)
Theorem render_ignores_diagnostics (fmt : Format) (e : Entity)
    (c1 c2 : StringifyContext) :
  name_scopes c1 = name_scopes c2 ->
  pose_stack c1 = pose_stack c2 ->
  fst (render fmt e c1) = fst (render fmt e c2) /\
  name_scopes (snd (render fmt e c1)) = name_scopes (snd (render fmt e c2)) /\
  pose_stack (snd (render fmt e c1)) = pose_stack (snd (render fmt e c2)).
Proof. apply scoped_same_outcome, scoped_render. Qed.

(** X6.  [Model.to_sdf_xml] returns a document for every model: the XML
    declaration, then the sdf element of version 1.9 around one model
    element. *)
Theorem Model_to_sdf_xml_document (m : Model) :
  exists body,
    Model_to_sdf_xml m
    = inr (xml_declaration ++ nl
             ++ "<sdf version=" ++ dq ++ "1.9" ++ dq ++ ">" ++ nl
             ++ body ++ nl ++ "</sdf>") /\
    starts_with ("<model name=" ++ dq ++ Model_name m ++ dq ++ ">") body /\
    ends_with "</model>" body.
Proof.
  destruct (Model_to_sdf_run m [] [])
    as (ls & js & ps & ws & _ & _ & Hrun).
  eexists. unfold Model_to_sdf_xml, fresh_context. rewrite Hrun. cbn [fst].
  split; [reflexivity|]. split.
  - unfold starts_with, model_element. eexists.
    rewrite !append_assoc. reflexivity.
  - unfold model_element.
    exists ("<model name=" ++ dq ++ Model_name m ++ dq ++ ">" ++ nl
            ++ "  <static>" ++ py_bool_str (Model_static m) ++ "</static>" ++ nl
            ++ "  " ++ ps ++ nl
            ++ "  " ++ py_strip (indent_text (py_join nl ls) None) ++ nl
            ++ "  " ++ py_strip (indent_text (py_join nl js) None) ++ nl).
    rewrite !append_assoc. reflexivity.
Qed.

(** X7.  The URDF render of an entity raises exactly in these cases: an
    include raises [ValueError]; a collision or a visual without a pose, and
    a link that holds one, raise [AttributeError]; a joint without a name
    raises the assertion error; a model raises [AttributeError] when one of
    its links holds geometry without a pose, and otherwise the assertion
    error when one of its joints has no name.  Every other entity renders
    to URDF with at most diagnostics. *)
Theorem to_urdf_raises_iff (e : Entity) (ctx : StringifyContext) :
  ((exists err, fst (to_urdf e ctx) = inl err) <-> raises_in_urdf e = true) /\
  (forall err, fst (to_urdf e ctx) = inl err -> err = urdf_exception e).
Proof.
  destruct (raises_in_urdf e) eqn:Hr.
  - pose proof (to_urdf_raises e ctx Hr) as H. split.
    + split; [reflexivity|]. intros _. eexists. exact H.
    + intros err Herr. rewrite H in Herr. now injection Herr as <-.
  - destruct (to_urdf_returns e ctx Hr) as (s & H). split.
    + split; [|discriminate]. intros (err & Herr). rewrite H in Herr. discriminate.
    + intros err Herr. rewrite H in Herr. discriminate.
Qed.

(** X8.  The URDF outcome of a collision does not depend on what its
    surface properties hold: it is the outcome of the same collision with
    empty surface properties.  When the collision has a pose, the render
    records one diagnostic about the surface properties, after those of the
    pose and the shape; when it has none, the render raises
    [AttributeError] before anything is recorded. *)
Theorem Collision_to_urdf_surface_ignored (c : Collision) (s : SurfaceInfo)
    (ctx : StringifyContext) :
  Collision_surface c = Some s ->
  let bare :=
    mkCollision (Collision_name c) (Collision_pose c) (Collision_shape c)
                (Some (mkSurfaceInfo None None)) in
  fst (Collision_to_urdf c ctx) = fst (Collision_to_urdf bare ctx) /\
  match Collision_pose c with
  | Some _ =>
      exists ws,
        warnings (snd (Collision_to_urdf c ctx))
        = (warnings ctx ++ ws
             ++ [(ESurfaceInfo s,
                  "Link surface properties are not supported in URDF.")])%list
  | None => Collision_to_urdf c ctx = (inl no_to_urdf, ctx)
  end.
Proof.
  intros Hs bare. destruct ctx as [n p w].
  destruct (framed_indented (Some 2%Z) _
              (framed_leaf ShapeInfo_to_urdf (Collision_shape c)) n p)
    as (ss & ws2 & H2).
  unfold Collision_to_urdf, bind, get_scoped_name.
  subst bare. cbn [Collision_name Collision_pose Collision_shape
                   Collision_surface name_scopes pose_stack warnings].
  rewrite Hs. destruct (Collision_pose c) as [pose|].
  - destruct (framed_leaf Pose_to_urdf pose n p) as (ps & ws1 & H1).
    cbn [Pose_to_urdf_unguarded]. rewrite !H1, !H2.
    cbn [if_some]. unfold indented, bind, SurfaceInfo_to_urdf, bind, warning, ret.
    cbn [name_scopes pose_stack warnings fst snd]. split; [reflexivity|].
    exists (ws1 ++ ws2)%list. now rewrite <- !app_assoc.
  - cbn. split; reflexivity.
Qed.

(** X9.  [Model._to_sdf] returns one model element with the static flag
    and the fragments of the links and of the joints, each list in the
    stored order.  A link element carries the local name of the link, and a
    joint element the local names of its parent and child, whatever the
    name scopes of the context are. *)
Theorem Model_to_sdf_children_in_order (m : Model) (ctx : StringifyContext) :
  exists link_strs joint_strs pose_s,
    fst (Model_to_sdf m ctx)
    = inr (model_element (Model_name m) (Model_static m) pose_s
             (py_join nl link_strs) (py_join nl joint_strs)) /\
    Forall2 (fun l frag =>
               starts_with ("<link name=" ++ dq ++ Link_name l ++ dq ++ ">") frag)
            (Model_links m) link_strs /\
    Forall2 (fun j frag => starts_with (joint_sdf_open_tags j) frag)
            (Model_joints m) joint_strs.
Proof.
  destruct ctx as [n p w].
  destruct (Model_to_sdf_run m n p) as (ls & js & ps & ws & HL & HJ & Hrun).
  exists ls, js, ps. rewrite Hrun. auto.
Qed.

(** X10.  When the scalar scale of an include is set, it is what
    [SDFInclude._to_sdf] writes and what [scale_1d] returns: the three-axis
    scale has no effect on the render.  When it is not set, [scale_1d]
    raises its assertion. *)
Theorem SDFInclude_scalar_scale_wins (i : SDFInclude) (ctx : StringifyContext) :
  match SDFInclude_scale1d i with
  | Some s =>
      SDFInclude_scale_1d i = inr s /\
      forall scale,
        SDFInclude_to_sdf
          (mkSDFInclude (SDFInclude_name i) (SDFInclude_uri i) scale
             (SDFInclude_pose i) (SDFInclude_parent i) (SDFInclude_static i)
             (Some s)) ctx
        = SDFInclude_to_sdf i ctx
  | None =>
      SDFInclude_scale_1d i
      = inl (AssertionError "scale_1d is not allowed. Use scale instead.")
  end.
Proof.
  unfold SDFInclude_scale_1d.
  destruct (SDFInclude_scale1d i) as [s|] eqn:Hs; [|reflexivity].
  split; [reflexivity|]. intro scale.
  unfold SDFInclude_to_sdf.
  cbn [SDFInclude_name SDFInclude_uri SDFInclude_scale SDFInclude_pose
       SDFInclude_static SDFInclude_scale1d].
  now rewrite Hs.
Qed.

(** X11.  [JointState._to_sdf] writes the opening tag, one stripped line
    for each axis state in the stored order, and the closing tag; without
    axis states the closing tag follows the opening line at once.  It leaves
    the context untouched, diagnostics included. *)
Theorem JointState_to_sdf_lines (x : JointState) (ctx : StringifyContext) :
  JointState_to_sdf x ctx
  = (inr ("<joint name=" ++ dq ++ JointState_name x ++ dq ++ ">" ++ nl
            ++ axis_lines (JointState_axis_states x) ++ "</joint>"),
     ctx) /\
  (JointState_axis_states x = [] ->
   fst (JointState_to_sdf x ctx)
   = inr ("<joint name=" ++ dq ++ JointState_name x ++ dq ++ ">" ++ nl
            ++ "</joint>")).
Proof.
  assert (H : JointState_to_sdf x ctx
              = (inr ("<joint name=" ++ dq ++ JointState_name x ++ dq ++ ">" ++ nl
                        ++ axis_lines (JointState_axis_states x) ++ "</joint>"),
                 ctx)).
  { unfold JointState_to_sdf, bind. rewrite append_lines_axis.
    unfold ret. now rewrite !append_assoc. }
  split; [exact H|]. intro Hnil. rewrite H, Hnil. reflexivity.
Qed.

(** X12.  In the fragment [Link._to_urdf] returns for a link whose
    geometry has its poses, the link, its collisions
    and its visuals are all named under the scopes the link was entered
    with: the link adds no scope of its own, so a collision [c] of a link [l]
    is named [<prefix>c], not [<prefix>l<sep>c]. *)
Theorem Link_to_urdf_geometry_names (l : Link) (ctx : StringifyContext) :
  link_has_poses l = true ->
  let prefix := scope_prefix (name_scopes ctx) in
  exists collision_strs visual_strs inertial_s,
    fst (Link_to_urdf l ctx)
    = inr (link_element (prefix ++ Link_name l) inertial_s
             collision_strs visual_strs) /\
    Forall2 (fun c frag =>
               starts_with (collision_open_tag (prefix ++ Collision_name c)) frag)
            (Link_collisions l) collision_strs /\
    Forall2 (fun v frag =>
               starts_with (visual_open_tag (prefix ++ Visual_name v)) frag)
            (Link_visuals l) visual_strs.
Proof.
  intro Hposes. destruct ctx as [n p w]. cbv zeta. cbn [name_scopes].
  destruct (Link_urdf_body_parts l n (link_body_poses l p) Hposes)
    as (cs & vs & ins & ws & HC & HV & Hbody).
  destruct (Link_to_urdf_any l n p) as (r & ws' & Hbody' & Hr).
  specialize (Hbody []). rewrite (Hbody' []) in Hbody.
  injection Hbody as -> _.
  exists cs, vs, ins. rewrite Hr, <- scoped_name_prefix.
  split; [reflexivity|]. split.
  - eapply Forall2_impl; [|exact HC].
    intros c f Hf. now rewrite <- scoped_name_prefix.
  - eapply Forall2_impl; [|exact HV].
    intros v f Hf. now rewrite <- scoped_name_prefix.
Qed.

(** X13.  [Link.from_simple_geom] passes on the exception of
    [ShapeInfo.from_type].  The link it builds otherwise renders to SDF
    through [to_sdf_xml], whatever pose it was given.  Rendered to URDF in
    any context, it returns the link element with one collision named
    [<prefix><name>_collision] and one visual named [<prefix><name>_visual]
    when it was given a pose, and raises [AttributeError] when the pose it
    was given is [None]. *)
Theorem Link_from_simple_geom_renders (name : string) (pose : option Pose)
    (shape_type : string) (rgba : PyNum * PyNum * PyNum * PyNum)
    (inertial : option Inertial) (kwargs : ShapeKwargs) :
  match ShapeInfo_from_type shape_type kwargs with
  | inl e =>
      Link_from_simple_geom name pose shape_type rgba inertial kwargs = inl e
  | inr _ =>
      exists l sdf_doc,
        Link_from_simple_geom name pose shape_type rgba inertial kwargs = inr l /\
        Link_to_sdf_xml l = inr sdf_doc /\
        forall ctx,
          let prefix := scope_prefix (name_scopes ctx) in
          match pose with
          | Some _ =>
              exists collision_s visual_s inertial_s,
                fst (Link_to_urdf l ctx)
                = inr (link_element (prefix ++ name) inertial_s
                         [collision_s] [visual_s]) /\
                starts_with (collision_open_tag (prefix ++ name ++ "_collision"))
                            collision_s /\
                starts_with (visual_open_tag (prefix ++ name ++ "_visual"))
                            visual_s
          | None => fst (Link_to_urdf l ctx) = inl no_to_urdf
          end
  end.
Proof.
  unfold Link_from_simple_geom.
  destruct (ShapeInfo_from_type shape_type kwargs) as [e | shape];
    [reflexivity|].
  destruct rgba as [[[r g] b] a].
  eexists.
  match goal with
  | |- exists sdf_doc, inr ?l = inr _ /\ _ =>
      destruct (Model_to_sdf_run (Link_as_model l) [] [])
        as (ls & js & ps & ws & _ & _ & Hsdf);
      set (built := l) in *
  end.
  eexists. split; [reflexivity|]. split.
  { unfold Link_to_sdf_xml, Model_to_sdf_xml, fresh_context.
    rewrite Hsdf. reflexivity. }
  intros [n p w]. cbv zeta. cbn [name_scopes].
  destruct pose as [pose|].
  - assert (Hposes : link_has_poses built = true) by reflexivity.
    destruct (Link_urdf_body_parts built n (link_body_poses built p) Hposes)
      as (cs & vs & ins & ws' & HC & HV & Hbody).
    destruct (Link_to_urdf_any built n p) as (r0 & ws0 & Hbody' & Hr).
    specialize (Hbody []). rewrite (Hbody' []) in Hbody.
    injection Hbody as -> _.
    cbn [built Link_collisions Link_visuals Link_name] in HC, HV.
    inversion HC as [|c0 cfrag ? cs0 Hc Hcs]; subst.
    inversion Hcs; subst. clear HC Hcs.
    inversion HV as [|v0 vfrag ? vs0 Hv Hvs]; subst.
    inversion Hvs; subst. clear HV Hvs.
    cbn [Collision_name Visual_name] in Hc, Hv.
    exists cfrag, vfrag, ins. rewrite Hr.
    rewrite scoped_name_prefix in Hc, Hv.
    cbn [fst built Link_name]. rewrite <- scoped_name_prefix.
    split; [reflexivity|]. split; assumption.
  - assert (Hposes : link_has_poses built = false) by reflexivity.
    destruct (Link_to_urdf_raise built n p Hposes) as (ws' & Hr).
    now rewrite Hr.
Qed.

End Properties.

(* ===================================================================== *)
(** ** The claims at concrete inputs *)
(* ===================================================================== *)

Import Demo.

(** The hypotheses of C1 hold for the model [m] and its link [l], and the
    theorem gives the flattened name and the pose stack of the body. *)
Lemma Model_to_urdf_link_name_and_pose_witness :
  NAME_SCOPE_SEP = default_sep /\
  model_has_poses model_m = true /\
  Model_pose model_m = Some (1%Z, 0%Z, 0%Z) /\
  In link_l (Model_links model_m) /\
  Link_pose link_l = Some (0%Z, 2%Z, 0%Z) /\
  exists frags frag body_ctx,
    fst (mapM Link_to_urdf (Model_links model_m)
           (snd (Model_urdf_enter model_m fresh_context))) = inr frags /\
    (forall s, fst (Model_to_urdf model_m fresh_context) = inr s ->
       exists joint_str,
         s = robot_element (Model_name model_m) (py_join nl frags) joint_str) /\
    In (link_l, frag) (combine (Model_links model_m) frags) /\
    starts_with (link_open_tag (Model_name model_m ++ "." ++ Link_name link_l)) frag /\
    fst (Link_urdf_body link_l body_ctx) = inr frag /\
    name_scopes body_ctx = [Model_name model_m] /\
    pose_stack body_ctx = [Pose_compose Pose_identity (0%Z, 2%Z, 0%Z)] /\
    In (EModel model_m, "Model::pose will be ignored in URDF.")
       (warnings (snd (Model_to_urdf model_m fresh_context))).
Proof.
  split; [reflexivity|]. split; [reflexivity|]. split; [reflexivity|].
  split; [left; reflexivity|]. split; [reflexivity|].
  apply (Model_to_urdf_link_name_and_pose model_m link_l (1%Z, 0%Z, 0%Z)
           (0%Z, 2%Z, 0%Z));
    [reflexivity | reflexivity | reflexivity | left; reflexivity | reflexivity].
Defined.

(** C1 as stated fails for the model [m], placed at [(1, 0, 0)], and its
    link [l], placed at [(0, 2, 0)]: the body of the link runs under the pose
    stack [[(0, 2, 0)]], and under the stack [[compose((1, 0, 0), (0, 2, 0))]]
    it would return another fragment than the one the render produces. *)
Lemma Model_to_urdf_link_pose_counterexample :
  Pose_compose (1%Z, 0%Z, 0%Z) (0%Z, 2%Z, 0%Z) = (1%Z, 2%Z, 0%Z) /\
  pose_stack (snd (Link_urdf_enter link_l
                     (snd (Model_urdf_enter model_m fresh_context))))
  = [(0%Z, 2%Z, 0%Z)] /\
  ~ (exists frags frag body_ctx,
       fst (mapM Link_to_urdf (Model_links model_m)
              (snd (Model_urdf_enter model_m fresh_context))) = inr frags /\
       In (link_l, frag) (combine (Model_links model_m) frags) /\
       fst (Link_urdf_body link_l body_ctx) = inr frag /\
       name_scopes body_ctx = [Model_name model_m] /\
       pose_stack body_ctx
       = [Pose_compose (1%Z, 0%Z, 0%Z) (0%Z, 2%Z, 0%Z)]).
Proof.
  split; [reflexivity|]. split; [reflexivity|].
  intros (frags & frag & [n p w] & Hfrags & Hin & Hbody & Hn & Hp).
  cbn [name_scopes pose_stack] in Hn, Hp. subst n p.
  vm_compute in Hfrags. injection Hfrags as <-.
  destruct Hin as [Hin | []]. injection Hin as <-.
  vm_compute in Hbody. discriminate Hbody.
Qed.

(** The hypotheses of C2 hold for the fresh context, here with a render
    that raises midway: the model whose joint has no name. *)
Lemma render_leaves_stacks_empty_witness :
  name_scopes fresh_context = [] /\
  pose_stack fresh_context = [] /\
  fst (render URDF (EModel model_unnamed_joint) fresh_context)
  = inl (AssertionError EmptyString) /\
  name_scopes (snd (render URDF (EModel model_unnamed_joint) fresh_context)) = [] /\
  pose_stack (snd (render URDF (EModel model_unnamed_joint) fresh_context)) = [].
Proof.
  split; [reflexivity|]. split; [reflexivity|]. split; [reflexivity|].
  apply (render_leaves_stacks_empty URDF (EModel model_unnamed_joint)
           fresh_context); reflexivity.
Defined.

(** The include [i], whose scale is [(1, 1, 1)] with no scalar set, in
    both formats. *)
Lemma SDFInclude_urdf_raises_sdf_renders_witness :
  fst (to_urdf (ESDFInclude include_i) fresh_context)
  = inl (ValueError "Include tags is not supported for URDF.") /\
  exists s, fst (to_sdf (ESDFInclude include_i) fresh_context) = inr s /\
            contains "model://table" s /\
            contains "<scale>1 1 1</scale>" s.
Proof.
  split; [reflexivity|].
  destruct (SDFInclude_urdf_raises_sdf_renders include_i fresh_context)
    as (_ & s & Hs & Huri & Hscale).
  exists s. auto.
Defined.

(** The hypotheses of the last part of C5 hold for the model [m], whose
    pose is set: the diagnostic about the pose is recorded and the render
    returns a fragment. *)
Lemma Model_to_urdf_ignored_fields_witness :
  model_has_poses model_m = true /\
  (forall j, In j (Model_joints model_m) -> Joint_name j <> None) /\
  Model_urdf_warnings model_m
  = [(EModel model_m, "Model::pose will be ignored in URDF.")] /\
  exists s, fst (Model_to_urdf model_m fresh_context) = inr s.
Proof.
  assert (Hnamed : forall j, In j (Model_joints model_m) -> Joint_name j <> None).
  { intros j []. }
  split; [reflexivity|]. split; [exact Hnamed|]. split; [reflexivity|].
  exact (proj2 (proj2 (proj2 (Model_to_urdf_ignored_fields model_m
                                fresh_context)))
           eq_refl Hnamed).
Defined.

(** The hypothesis of C6 holds for the surface properties of the collision
    of [l]. *)
Lemma nesting_only_to_urdf_witness :
  nesting_only (ESurfaceInfo (mkSurfaceInfo None (Some mkSurfaceFriction))) = true /\
  exists message,
    to_urdf (ESurfaceInfo (mkSurfaceInfo None (Some mkSurfaceFriction)))
      fresh_context
    = (inr EmptyString,
       mkContext (name_scopes fresh_context) (pose_stack fresh_context)
         (warnings fresh_context
            ++ [(ESurfaceInfo (mkSurfaceInfo None (Some mkSurfaceFriction)),
                 message)])%list).
Proof.
  split; [reflexivity|].
  apply (nesting_only_to_urdf
           (ESurfaceInfo (mkSurfaceInfo None (Some mkSurfaceFriction)))
           fresh_context).
  reflexivity.
Defined.

(** The joint without a name and the joint [j], in the two formats. *)
Lemma Joint_name_absent_or_present_witness :
  (exists s, fst (Joint_to_sdf joint_unnamed fresh_context) = inr s /\
             starts_with ("<joint type=" ++ dq ++ "fixed" ++ dq ++ ">") s) /\
  Joint_to_urdf joint_unnamed fresh_context
  = (inl (AssertionError EmptyString), fresh_context) /\
  exists s, fst (Joint_to_urdf joint_j fresh_context) = inr s /\
            starts_with ("<joint name=" ++ dq ++ "j" ++ dq) s.
Proof.
  split; [|split].
  - exact (proj1 (Joint_name_absent_or_present joint_unnamed fresh_context)).
  - reflexivity.
  - exact (Joint_name_absent_or_present joint_j fresh_context).
Defined.

(** The hypothesis of C9 holds for a box. *)
Lemma Link_from_simple_geom_spec_witness :
  ShapeInfo_from_type "box" tt = inr "box" /\
  exists l,
    Link_from_simple_geom "b" (Some (0%Z, 0%Z, 1%Z)) "box"
      (1%Z, 0%Z, 0%Z, 1%Z) None tt
    = inr l /\
    Link_name l = "b" /\
    Link_pose l = None /\
    Link_parent l = None /\
    Link_collisions l
    = [mkCollision ("b" ++ "_collision") (Some (0%Z, 0%Z, 1%Z)) "box" None] /\
    Link_visuals l
    = [mkVisual ("b" ++ "_visual") (Some (0%Z, 0%Z, 1%Z)) "box"
         (Some (RGBA 1%Z 0%Z 0%Z 1%Z))].
Proof.
  split; [reflexivity|].
  apply (Link_from_simple_geom_spec (C := collaborators) "b"
           (Some (0%Z, 0%Z, 1%Z)) "box" 1%Z 0%Z 0%Z 1%Z None tt "box").
  reflexivity.
Defined.

(** The hypotheses of C10 hold for the joint [j] and for the model of two
    links it joins. *)
Lemma Joint_to_urdf_names_share_scope_witness :
  (Joint_name joint_j = Some "j" /\
   exists frag,
     fst (Joint_to_urdf joint_j (mkContext ["m"] [] [])) = inr frag /\
     starts_with (joint_open_tags ("m." ++ "j") "fixed" ("m." ++ "l") ("m." ++ "k"))
                 frag) /\
  (model_has_poses model_jointed = true /\
   (forall j, In j (Model_joints model_jointed) -> Joint_name j <> None) /\
   exists link_frags joint_frags,
     fst (Model_to_urdf model_jointed fresh_context)
     = inr (robot_element "m" (py_join nl link_frags) (py_join nl joint_frags)) /\
     Forall2 (fun l frag =>
                starts_with (link_open_tag ("m." ++ Link_name l)) frag)
             (Model_links model_jointed) link_frags /\
     Forall2 (fun j frag =>
                exists own,
                  Joint_name j = Some own /\
                  starts_with (joint_open_tags ("m." ++ own) (Joint_type j)
                                 ("m." ++ Joint_parent j)
                                 ("m." ++ Joint_child j)) frag)
             (Model_joints model_jointed) joint_frags).
Proof.
  assert (Hnamed : forall j, In j (Model_joints model_jointed) ->
                             Joint_name j <> None).
  { intros j [<- | []]. discriminate. }
  split; split.
  - reflexivity.
  - exact (proj1 Joint_to_urdf_names_share_scope joint_j "j"
             (mkContext ["m"] [] []) eq_refl).
  - reflexivity.
  - split; [exact Hnamed|].
    exact (proj2 Joint_to_urdf_names_share_scope model_jointed fresh_context
             eq_refl Hnamed).
Defined.

(** X7 at the model whose joint has no name, at a collision without a
    pose and at the link [k]: the first two raise, the link does not. *)
Lemma to_urdf_raises_iff_witness :
  raises_in_urdf (EModel model_unnamed_joint) = true /\
  fst (to_urdf (EModel model_unnamed_joint) fresh_context)
  = inl (AssertionError EmptyString) /\
  raises_in_urdf (ECollision (mkCollision "c" None "box" None)) = true /\
  fst (to_urdf (ECollision (mkCollision "c" None "box" None)) fresh_context)
  = inl no_to_urdf /\
  raises_in_urdf (ELink link_k) = false /\
  ~ (exists err, fst (to_urdf (ELink link_k) fresh_context) = inl err).
Proof.
  split; [reflexivity|]. split; [reflexivity|].
  split; [reflexivity|]. split; [reflexivity|].
  split; [reflexivity|]. intro H.
  apply (proj1 (proj1 (to_urdf_raises_iff (ELink link_k) fresh_context))) in H.
  discriminate H.
Defined.

(** The hypothesis of X8 holds for the collision of [l], whose surface
    properties hold a friction entry. *)
Lemma Collision_to_urdf_surface_ignored_witness :
  Collision_surface
    (mkCollision "l_collision" (Some (0%Z, 0%Z, 0%Z)) "box"
       (Some (mkSurfaceInfo None (Some mkSurfaceFriction))))
  = Some (mkSurfaceInfo None (Some mkSurfaceFriction)) /\
  fst (Collision_to_urdf
         (mkCollision "l_collision" (Some (0%Z, 0%Z, 0%Z)) "box"
            (Some (mkSurfaceInfo None (Some mkSurfaceFriction))))
         fresh_context)
  = fst (Collision_to_urdf
           (mkCollision "l_collision" (Some (0%Z, 0%Z, 0%Z)) "box"
              (Some (mkSurfaceInfo None None)))
           fresh_context).
Proof.
  split; [reflexivity|].
  exact (proj1 (Collision_to_urdf_surface_ignored (C := collaborators)
                  (mkCollision "l_collision" (Some (0%Z, 0%Z, 0%Z)) "box"
                     (Some (mkSurfaceInfo None (Some mkSurfaceFriction))))
                  (mkSurfaceInfo None (Some mkSurfaceFriction))
                  fresh_context eq_refl)).
Defined.

(** The hypothesis of X11 holds for a joint state without axis states. *)
Lemma JointState_to_sdf_lines_witness :
  JointState_axis_states (mkJointState "j" []) = [] /\
  fst (JointState_to_sdf (mkJointState "j" []) fresh_context)
  = inr ("<joint name=" ++ dq ++ "j" ++ dq ++ ">" ++ nl ++ "</joint>").
Proof.
  split; [reflexivity|].
  exact (proj2 (JointState_to_sdf_lines (mkJointState "j" []) fresh_context)
           eq_refl).
Defined.

(** The hypotheses of X5 hold for a fresh context and the context a first
    render of the model [m] left behind: the second render returns what the
    first did. *)
Lemma render_ignores_diagnostics_witness :
  name_scopes fresh_context
  = name_scopes (snd (render URDF (EModel model_m) fresh_context)) /\
  pose_stack fresh_context
  = pose_stack (snd (render URDF (EModel model_m) fresh_context)) /\
  warnings (snd (render URDF (EModel model_m) fresh_context)) <> [] /\
  fst (render URDF (EModel model_m) fresh_context)
  = fst (render URDF (EModel model_m)
           (snd (render URDF (EModel model_m) fresh_context))).
Proof.
  split; [reflexivity|]. split; [reflexivity|]. split; [discriminate|].
  exact (proj1 (render_ignores_diagnostics URDF (EModel model_m) fresh_context
                  (snd (render URDF (EModel model_m) fresh_context))
                  eq_refl eq_refl)).
Defined.

(** The hypothesis of X12 holds for the link [l], rendered under the
    scopes of a model [m]. *)
Lemma Link_to_urdf_geometry_names_witness :
  link_has_poses link_l = true /\
  exists collision_strs visual_strs inertial_s,
    fst (Link_to_urdf link_l (mkContext ["m"] [] []))
    = inr (link_element ("m." ++ "l") inertial_s collision_strs visual_strs) /\
    Forall2 (fun c frag =>
               starts_with (collision_open_tag ("m." ++ Collision_name c)) frag)
            (Link_collisions link_l) collision_strs /\
    Forall2 (fun v frag =>
               starts_with (visual_open_tag ("m." ++ Visual_name v)) frag)
            (Link_visuals link_l) visual_strs.
Proof.
  split; [reflexivity|].
  exact (Link_to_urdf_geometry_names link_l (mkContext ["m"] [] []) eq_refl).
Defined.
